(** * generate_adversarial_example.py: a shallow embedding

    The script wraps TensorFlow/Keras, OpenCV and NumPy.  Library calls
    (the classifiers, automatic differentiation, the optimizer, image
    decoding and resizing) are parameters of the development; the code of
    the script itself is transcribed function by function.

    Tensor elements are exact rationals: rounding of float32 arithmetic is
    not modelled. *)

From Stdlib Require Import Ascii String QArith Qminmax Qround Lqa.
From stdpp Require Import gmap strings list.

Local Open Scope string_scope.
Local Open Scope list_scope.

(** ** Strings: [str.lower] and [str.replace] on ASCII text *)

Module PyStr.

Definition is_upper (c : ascii) : bool :=
  let n := nat_of_ascii c in (65 <=? n)%nat && (n <=? 90)%nat.

(** [str.lower] on one character: 'A'..'Z' are moved to 'a'..'z', every
    other ASCII character is kept. *)
Definition lower_char (c : ascii) : ascii :=
  if is_upper c then ascii_of_nat (nat_of_ascii c + 32) else c.

Fixpoint lower (s : string) : string :=
  match s with
  | EmptyString => EmptyString
  | String c s' => String (lower_char c) (lower s')
  end.

(** [s.replace(a, b)] for one-character [a] and [b]. *)
Fixpoint replace (a b : ascii) (s : string) : string :=
  match s with
  | EmptyString => EmptyString
  | String c s' => String (if Ascii.eqb c a then b else c) (replace a b s')
  end.

End PyStr.

(** ** Label Index Resolver *)

(** [label.lower().replace("_", " ")] (line 27). *)
Definition normalize_label (label : string) : string :=
  PyStr.replace "_" " " (PyStr.lower label).

(** [get_target_class_index] (lines 26-31).  [mapping_dict] is the content
    of imagenet_index.json; [dict.get(label, None)] is the map lookup, with
    [None] for Python's [None]. *)
Definition get_target_class_index
    (mapping_dict : gmap string Z) (label : string) : option Z :=
  let label := normalize_label label in
  mapping_dict !! label.

(** Two characters that are the same letter in either case, or that are
    both taken from underscore and space. *)
Definition char_variant (a b : ascii) : bool :=
  Ascii.eqb a b
  || (PyStr.is_upper a && (nat_of_ascii b =? nat_of_ascii a + 32)%nat)
  || (PyStr.is_upper b && (nat_of_ascii a =? nat_of_ascii b + 32)%nat)
  || ((Ascii.eqb a "_" || Ascii.eqb a " ")
      && (Ascii.eqb b "_" || Ascii.eqb b " ")).

(** Labels that differ only in letter case and in underscores written for
    spaces: same length, position-wise [char_variant]. *)
Fixpoint label_variant (s t : string) : bool :=
  match s, t with
  | EmptyString, EmptyString => true
  | String a s', String b t' => char_variant a b && label_variant s' t'
  | _, _ => false
  end.

(** The character that [normalize_label] writes for [c]. *)
Definition normalize_char (c : ascii) : ascii :=
  let c := PyStr.lower_char c in
  if Ascii.eqb c "_" then " "%char else c.

Definition all_ascii : list ascii := List.map ascii_of_nat (seq 0 256).

(** A key in the form [normalize_label] produces: no capital letter, no
    underscore. *)
Fixpoint is_normalized (s : string) : bool :=
  match s with
  | EmptyString => true
  | String c s' =>
      negb (PyStr.is_upper c) && negb (Ascii.eqb c "_") && is_normalized s'
  end.

(** ** Arrays: a shape and a flat, row-major buffer *)

Record ndarray (A : Type) : Type := mk_ndarray {
  shape : list nat;
  data : list A
}.
Arguments mk_ndarray {A} _ _.
Arguments shape {A} _.
Arguments data {A} _.

(** A float tensor; a decoded image is an [ndarray Z] of 8-bit values. *)
Abbreviation tensor := (ndarray Q).

Module Np.

Definition map {A B} (f : A -> B) (a : ndarray A) : ndarray B :=
  mk_ndarray (shape a) (List.map f (data a)).

(** [np.expand_dims(a, axis=0)] *)
Definition expand_dims0 {A} (a : ndarray A) : ndarray A :=
  mk_ndarray (1%nat :: shape a) (data a).

(** [a.squeeze()]: every axis of length one is dropped. *)
Definition squeeze {A} (a : ndarray A) : ndarray A :=
  mk_ndarray (List.filter (fun d => negb (d =? 1)%nat) (shape a)) (data a).

(** [np.clip(a, lo, hi)] is [minimum(maximum(a, lo), hi)]. *)
Definition clip_elem (lo hi x : Q) : Q := Qmin (Qmax x lo) hi.
Definition clip (a : tensor) (lo hi : Q) : tensor := map (clip_elem lo hi) a.

(** Rounding toward zero, as the C conversion from float to integer. *)
Definition truncate (x : Q) : Z :=
  if Qle_bool 0 x then Qfloor x else Qceiling x.

(** [a.astype("uint8")]: truncation, then reduction modulo 2^8. *)
Definition uint8_of (x : Q) : Z := truncate x mod 256.
Definition astype_uint8 (a : tensor) : ndarray Z := map uint8_of a.

End Np.

Module Tf.

(** [tf.constant(a, dtype=tf.float32)] of an 8-bit image. *)
Definition constant (a : ndarray Z) : tensor := Np.map inject_Z a.

Definition zeros_like (a : tensor) : tensor := Np.map (fun _ => 0%Q) a.

(** [a + b] for two tensors of one shape (in the script [delta] always has
    the shape of [baseImage]). *)
Definition add (a b : tensor) : tensor :=
  mk_ndarray (shape a) (zip_with Qplus (data a) (data b)).

(** [tf.clip_by_value(t, lo, hi)] is [maximum(minimum(t, hi), lo)]. *)
Definition clip_elem (lo hi x : Q) : Q := Qmax (Qmin x hi) lo.
Definition clip_by_value (t : tensor) (lo hi : Q) : tensor :=
  Np.map (clip_elem lo hi) t.

End Tf.

Module Cv.

(** Channels 0 and 2 of every pixel change places; this is both
    [COLOR_BGR2RGB] and [COLOR_RGB2BGR] on a 3-channel buffer. *)
Fixpoint swap_channels {A} (l : list A) : list A :=
  match l with
  | c0 :: c1 :: c2 :: rest => c2 :: c1 :: c0 :: swap_channels rest
  | _ => l
  end.

Definition cvtColor {A} (img : ndarray A) : ndarray A :=
  mk_ndarray (shape img) (swap_channels (data img)).

End Cv.

(** [clip_eps] (lines 40-42). *)
Definition clip_eps (t : tensor) (eps : Q) : tensor :=
  Tf.clip_by_value t (- eps) eps.

(** ** The libraries the script calls *)

(** One decoded prediction: class identifier, label, confidence. *)
Definition prediction : Type := string * string * Q.

Class Framework := {
  (** variables of a Keras model, and slots of a Keras optimizer *)
  Weights : Type;
  OptState : Type;
  (** [tf.__version__] and [tf.test.gpu_device_name()] *)
  tf_version : string;
  gpu_device_name : string;
  (** [cv2.imread]: [None] when the file cannot be decoded *)
  imread : string -> option (ndarray Z);
  (** [cv2.resize(image, (width, height))] *)
  resize : ndarray Z -> nat -> nat -> ndarray Z;
  (** [ResNet50(weights = "imagenet")] *)
  ResNet50 : Weights;
  (** [model(x, training=b)]: the scores, and the variables after the call;
      [model.predict(x)] is the call with [training=False] *)
  model_call : Weights -> bool -> tensor -> tensor * Weights;
  (** [resnet50.preprocess_input] and [decode_predictions(p, top=3)[0]] *)
  preprocess_input : tensor -> tensor;
  decode_predictions : tensor -> list prediction;
  (** [SparseCategoricalCrossentropy()(y_true, y_pred)] *)
  sccLoss : list Z -> tensor -> Q;
  (** [tape.gradient(loss, x)]: the gradient, at the value of [x], of the
      recorded computation of [loss] from [x] *)
  tape_gradient : (tensor -> Q) -> tensor -> tensor;
  (** [Adam(learning_rate = lr)] and [apply_gradients([(g, x)])]: the new
      slots and the new value of the variable [x] *)
  Adam : Q -> OptState;
  apply_gradients : OptState -> tensor -> tensor -> OptState * tensor;
  (** [cv2.putText(img, "label: conf%", ...)] *)
  putText : ndarray Z -> string -> Q -> ndarray Z;
  (** MobileNetV2 with its own normalization and decoder *)
  mobilenet_predict : tensor -> tensor;
  mobilenet_preprocess_input : tensor -> tensor;
  mobilenet_decode_predictions : tensor -> list prediction
}.

(** ** Effects: console and library calls, exit, exceptions *)

Inductive message : Type :=
| MsgTfVersion (v : string)
| MsgGpu (found : bool)
| MsgTargetMissing
| MsgInputFilename (s : string)
| MsgTargetClass (s : string)
| MsgTargetIndex (i : Z)
| MsgTop3 (p : list prediction)
| MsgOriginalIndex (i : option Z)
| MsgStepLoss (step : Z) (loss : Q)
| MsgTop3Adversarial (p : list prediction)
| MsgTop3MobileNet (p : list prediction).

Inductive event : Type :=
| Print (m : message)
| Imread (path : string)
| LoadModel (name : string)
| Predict (name : string) (x : tensor)
| Forward (x : tensor)
| TapeGradient (loss : Q)
| ApplyGradients (grads : tensor)
| Imwrite (path : string) (img : ndarray Z)
| Imshow (title : string) (img : ndarray Z)
| WaitKey.

Inductive exn : Type := TypeError | IndexError | CvError.

Inductive outcome (A : Type) : Type :=
| Done (a : A)
| Exited (code : Z)
| Raised (e : exn).
Arguments Done {A} _.
Arguments Exited {A} _.
Arguments Raised {A} _.

(** A computation: the events it performed, in order, and how it ended. *)
Definition io (A : Type) : Type := list event * outcome A.

Definition io_ret {A} (a : A) : io A := ([], Done a).

Definition io_bind {A B} (m : io A) (k : A -> io B) : io B :=
  match m with
  | (tr, Done a) => let '(tr', r) := k a in (tr ++ tr', r)
  | (tr, Exited c) => (tr, Exited c)
  | (tr, Raised e) => (tr, Raised e)
  end.

(** stdpp's monad notation: [x ← m; k] and [m;; k]. *)
#[global] Instance io_mret : MRet io := @io_ret.
#[global] Instance io_mbind : MBind io := fun A B k m => io_bind m k.

Definition emit (e : event) : io unit := ([e], Done tt).
Definition print (m : message) : io unit := emit (Print m).
Definition sys_exit {A} (code : Z) : io A := ([], Exited code).
Definition raise {A} (e : exn) : io A := ([], Raised e).

(** [int(v)] for [v] an integer or [None]. *)
Definition py_int (v : option Z) : io Z :=
  match v with
  | Some n => mret n
  | None => raise TypeError
  end.

(** [range(0, n)] *)
Definition range (n : Z) : list Z := List.map Z.of_nat (seq 0 (Z.to_nat n)).

(** [for x in xs: s = body(x, s)] *)
Fixpoint for_each {S X} (body : X -> S -> io S) (xs : list X) (s : S) : io S :=
  match xs with
  | [] => mret s
  | x :: xs' => s' ← body x s; for_each body xs' s'
  end.

Section Script.
Context `{F : Framework}.

(** ** Image Preprocessor *)

(** [cv2.cvtColor] rejects the [None] that [cv2.imread] returns for an
    unreadable file. *)
Definition cv2_cvtColor (image : option (ndarray Z)) : io (ndarray Z) :=
  match image with
  | Some img => mret (Cv.cvtColor img)
  | None => raise CvError
  end.

(** [preprocess_image] (lines 33-38). *)
Definition preprocess_image (image : option (ndarray Z)) : io (ndarray Z) :=
  image ← cv2_cvtColor image;
  let image := resize image 224 224 in
  let image := Np.expand_dims0 image in
  mret image.

(** ** Perturbation Optimizer *)

(** The objects the loop of [generate_target_adversaries] reads and
    writes.  Its arguments [model] and [delta] are references: the Keras
    model and the [tf.Variable] they point to are [st_model] and [st_delta].
    The names [baseImage], [epsilon] and [optimizer] in its body are
    module-level: [st_baseImage], [st_epsilon], [st_optimizer]. *)
Record store : Type := mk_store {
  st_model : Weights;
  st_baseImage : tensor;
  st_epsilon : Q;
  st_optimizer : OptState;
  st_delta : tensor
}.

(** The computation recorded by the tape (lines 51-59), as a function of
    the watched perturbation. *)
Definition recorded_loss (st : store) (o t : Z) (d : tensor) : Q :=
  let adversary := preprocess_input (Tf.add (st_baseImage st) d) in
  let predictions := (model_call (st_model st) false adversary).1 in
  (- sccLoss [o] predictions + sccLoss [t] predictions)%Q.

(** One pass through the loop body (lines 46-69). *)
Definition loop_body (original_class_index target_class_index : option Z)
    (step : Z) (st : store) : io store :=
  let adversary := preprocess_input (Tf.add (st_baseImage st) (st_delta st)) in
  emit (Forward adversary);;
  let '(predictions, weights) := model_call (st_model st) false adversary in
  o ← py_int original_class_index;
  let originalLoss := (- sccLoss [o] predictions)%Q in
  t ← py_int target_class_index;
  let targetLoss := sccLoss [t] predictions in
  let totalLoss := (originalLoss + targetLoss)%Q in
  (if (step mod 10 =? 0)%Z
   then print (MsgStepLoss step totalLoss)
   else mret tt);;
  emit (TapeGradient totalLoss);;
  let gradients := tape_gradient (recorded_loss st o t) (st_delta st) in
  emit (ApplyGradients gradients);;
  let '(slots, updated) := apply_gradients (st_optimizer st) gradients (st_delta st) in
  mret {| st_model := weights;
          st_baseImage := st_baseImage st;
          st_epsilon := st_epsilon st;
          st_optimizer := slots;
          st_delta := Tf.add updated (clip_eps updated (st_epsilon st)) |}.

(** [generate_target_adversaries] (lines 44-71).  [base_image] is the
    second argument of the source; [model] and [delta] are in the store, and
    the [delta] returned on line 71 is the [st_delta] of the final store. *)
Definition generate_target_adversaries (base_image : tensor)
    (original_class_index target_class_index : option Z) (steps : Z)
    (st : store) : io store :=
  for_each (loop_body original_class_index target_class_index) (range steps) st.

(** ** Attack Driver *)

(** [xs[0]] *)
Definition index0 {A} (xs : list A) : io A :=
  match xs with
  | x :: _ => mret x
  | [] => raise IndexError
  end.

(** Lines 123-125: the image handed to [cv2.imwrite]. *)
Definition adversarial_image (baseImage deltaUpdated : tensor) : ndarray Z :=
  let adverImage := Np.squeeze (Tf.add baseImage deltaUpdated) in
  let adverImage := Np.astype_uint8 (Np.clip adverImage 0 255) in
  Cv.cvtColor adverImage.

(** Module-level names at the end of a run. *)
Record namespace : Type := mk_namespace {
  ns_input_image : ndarray Z;
  ns_baseImage : tensor;
  ns_deltaUpdated : tensor;
  ns_adverImage : ndarray Z
}.

(** Lines 86-148: the run once the target class is resolved. *)
Definition attack (mapping_dict : gmap string Z) (file_in target_class : string)
    (target_index : Z) : io namespace :=
  print (MsgInputFilename file_in);;
  print (MsgTargetClass target_class);;
  print (MsgTargetIndex target_index);;
  emit (Imread file_in);;
  input_image ← preprocess_image (imread file_in);
  let preprocessed_input := preprocess_input (Tf.constant input_image) in
  emit (LoadModel "ResNet50");;
  emit (Predict "ResNet50" preprocessed_input);;
  let '(predictions, weights) := model_call ResNet50 false preprocessed_input in
  let predictions := decode_predictions predictions in
  print (MsgTop3 predictions);;
  top ← index0 predictions;
  let original_label := top.1.2 in
  let original_index := get_target_class_index mapping_dict original_label in
  print (MsgOriginalIndex original_index);;
  let epsilon := (2 / 255)%Q in
  let learning_rate := (1 / 100)%Q in
  let num_of_steps := 100%Z in
  let baseImage := Tf.constant input_image in
  let delta := Tf.zeros_like baseImage in
  st ← generate_target_adversaries baseImage original_index (Some target_index)
         num_of_steps
         (mk_store weights baseImage epsilon (Adam learning_rate) delta);
  let deltaUpdated := st_delta st in
  let adverImage := adversarial_image baseImage deltaUpdated in
  emit (Imwrite "output.png" adverImage);;
  let preprocessed_input := preprocess_input (Tf.add baseImage deltaUpdated) in
  emit (Predict "ResNet50" preprocessed_input);;
  let predictions := decode_predictions (model_call (st_model st) false preprocessed_input).1 in
  print (MsgTop3Adversarial predictions);;
  top ← index0 predictions;
  let adv_label := top.1.2 in
  let adv_confidence := top.2 in
  let adverImage := putText adverImage adv_label (adv_confidence * 100)%Q in
  emit (Imshow "Output" adverImage);;
  emit WaitKey;;
  emit (LoadModel "MobileNetV2");;
  let preprocessed_input2 := mobilenet_preprocess_input (Tf.add baseImage deltaUpdated) in
  emit (Predict "MobileNetV2" preprocessed_input2);;
  let predictions2 := mobilenet_decode_predictions (mobilenet_predict preprocessed_input2) in
  print (MsgTop3MobileNet predictions2);;
  mret (mk_namespace input_image baseImage deltaUpdated adverImage).

(** The script, from its first line, on the two parsed command-line
    arguments: the banner (lines 17-24), the target check (lines 81-84),
    then the attack. *)
Definition main (mapping_dict : gmap string Z) (file_in target_class : string)
    : io namespace :=
  print (MsgTfVersion tf_version);;
  print (MsgGpu (negb (String.eqb gpu_device_name "")));;
  let target_index := get_target_class_index mapping_dict target_class in
  match target_index with
  | None => print MsgTargetMissing;; sys_exit 0
  | Some target_index => attack mapping_dict file_in target_class target_index
  end.

End Script.

(** ** Reading a trace *)

(** Inputs of the classifier calls inside the loop, in order. *)
Definition forward_calls (tr : list event) : list tensor :=
  omap (fun e => match e with Forward x => Some x | _ => None end) tr.

(** Arguments of the [apply_gradients] calls, in order. *)
Definition gradient_updates (tr : list event) : list tensor :=
  omap (fun e => match e with ApplyGradients g => Some g | _ => None end) tr.

(** Losses handed to [tape.gradient], in order: one per iteration. *)
Definition tape_losses (tr : list event) : list Q :=
  omap (fun e => match e with TapeGradient l => Some l | _ => None end) tr.

(** The "step: .., loss: .." lines, in order. *)
Definition printed_losses (tr : list event) : list (Z * Q) :=
  omap (fun e => match e with
                 | Print (MsgStepLoss k l) => Some (k, l)
                 | _ => None
                 end) tr.

(** Inputs of the [predict] calls, with the classifier's name. *)
Definition predict_calls (tr : list event) : list (string * tensor) :=
  omap (fun e => match e with Predict n x => Some (n, x) | _ => None end) tr.

(** Files written by [cv2.imwrite]. *)
Definition written_files (tr : list event) : list (string * ndarray Z) :=
  omap (fun e => match e with Imwrite p img => Some (p, img) | _ => None end) tr.

(** Events of the optimization loop. *)
Definition loop_event (e : event) : bool :=
  match e with
  | Forward _ | TapeGradient _ | ApplyGradients _ | Print (MsgStepLoss _ _) => true
  | _ => false
  end.

(** A trace without its console lines: the library calls, in order. *)
Definition library_calls (tr : list event) : list event :=
  List.filter (fun e => match e with Print _ => false | _ => true end) tr.

(** A rational that is a whole number. *)
Definition is_integer (x : Q) : Prop := (inject_Z (Qfloor x) == x)%Q.

(** ** A small framework to run the script on

    A three-class classifier over one pixel whose scores are the
    normalized channels, a loss that is affine in the scores, gradients by
    unit differences (exact for affine losses) and plain gradient descent
    as the optimizer. *)

Module Fixture.

(** Caffe-style normalization: RGB to BGR, then the channel means are
    subtracted. *)
Fixpoint center (l : list Q) : list Q :=
  match l with
  | b :: g :: r :: rest =>
      (b - (103939 # 1000))%Q :: (g - (116779 # 1000))%Q
        :: (r - (12368 # 100))%Q :: center rest
  | _ => l
  end.

Definition caffe_preprocess_input (t : tensor) : tensor :=
  mk_ndarray (shape t) (center (Cv.swap_channels (data t))).

(** Nearest-neighbour resampling to [h] rows of [w] pixels. *)
Definition nearest_resize (img : ndarray Z) (w h : nat) : ndarray Z :=
  match shape img with
  | [h0; w0; c] =>
      mk_ndarray [h; w; c]
        (flat_map (fun y => flat_map (fun x =>
           take c (drop (((y * h0 / h) * w0 + x * w0 / w) * c) (data img)))
           (seq 0 w)) (seq 0 h))
  | _ => img
  end.

(** Keeps the image as it is: a stand-in that keeps runs small. *)
Definition no_resize (img : ndarray Z) (w h : nat) : ndarray Z := img.

Definition scores_of (x : tensor) : tensor := mk_ndarray [1; 3]%nat (take 3 (data x)).

Definition affine_loss (labels : list Z) (p : tensor) : Q :=
  match labels with
  | [i] => (1 - nth (Z.to_nat i) (data p) 0)%Q
  | _ => 0%Q
  end.

Definition unit_difference (f : tensor -> Q) (x : tensor) : tensor :=
  mk_ndarray (shape x)
    (imap (fun i _ =>
       (f (mk_ndarray (shape x) (alter (Qplus 1) i (data x))) - f x)%Q) (data x)).

Definition descend (s : Q * nat) (g x : tensor) : (Q * nat) * tensor :=
  ((s.1, S s.2),
   mk_ndarray (shape x) (zip_with (fun xi gi => Qred (xi - s.1 * gi)) (data x) (data g))).

Definition labels3 (p : tensor) : list prediction :=
  zip_with (fun l s => ("n0", l, s)) ["tabby"; "golf_ball"; "soccer_ball"] (data p).

Definition cat_png : ndarray Z := mk_ndarray [1; 1; 3]%nat [10; 120; 250]%Z.

Definition framework (rs : ndarray Z -> nat -> nat -> ndarray Z) : Framework := {|
  Weights := Z;
  OptState := Q * nat;
  tf_version := "2.3.0";
  gpu_device_name := "";
  imread := fun path => if String.eqb path "cat.png" then Some cat_png else None;
  resize := rs;
  ResNet50 := 0%Z;
  model_call := fun w training x => (scores_of x, if training then (w + 1)%Z else w);
  preprocess_input := caffe_preprocess_input;
  decode_predictions := labels3;
  sccLoss := affine_loss;
  tape_gradient := unit_difference;
  Adam := fun lr => (lr, 0%nat);
  apply_gradients := descend;
  putText := fun img _ _ => img;
  mobilenet_predict := scores_of;
  mobilenet_preprocess_input := Np.map (fun v => (v / (255 # 2) - 1)%Q);
  mobilenet_decode_predictions := labels3
|}.

Definition imagenet_index : gmap string Z :=
  {[ "tabby" := 0%Z; "golf ball" := 1%Z; "soccer ball" := 2%Z ]}.

(** The store the driver builds for [cat.png]. *)
Definition store0 : @store (framework no_resize) :=
  let baseImage := Tf.constant (Np.expand_dims0 (Cv.cvtColor cat_png)) in
  @mk_store (framework no_resize) 0%Z baseImage (2 / 255)%Q ((1 / 100)%Q, 0%nat)
    (Tf.zeros_like baseImage).

(** A label map without the class the classifier predicts for cat.png. *)
Definition golf_only : gmap string Z := {[ "golf ball" := 1%Z ]}.

(** The loop on [store0], original class 0 and target class 1. *)
Definition run (k : nat) : io (@store (framework no_resize)) :=
  @generate_target_adversaries (framework no_resize) (st_baseImage store0)
    (Some 0%Z) (Some 1%Z) (Z.of_nat k) store0.

Definition store_after (k : nat) : @store (framework no_resize) :=
  match (run k).2 with
  | Done st => st
  | _ => store0
  end.

(** The script on cat.png with target class "Golf_Ball". *)
Definition golf_run : io namespace :=
  @main (framework no_resize) imagenet_index "cat.png" "Golf_Ball".

(** The image it writes. *)
Definition output_png : ndarray Z :=
  match written_files golf_run.1 with
  | (_, img) :: _ => img
  | [] => cat_png
  end.

(** The namespace a run of [main] ends with. *)
Definition namespace_of (r : io namespace) : namespace :=
  match r.2 with
  | Done ns => ns
  | _ => mk_namespace cat_png (Tf.constant cat_png) (Tf.constant cat_png) cat_png
  end.

End Fixture.

(** * Properties *)

(** ** The effect monad and the loop combinator *)

Lemma io_bind_assoc {A B C} (m : io A) (f : A -> io B) (g : B -> io C) :
  io_bind (io_bind m f) g = io_bind m (fun a => io_bind (f a) g).
Proof.
  destruct m as [tr [a| |]]; simpl; try reflexivity.
  destruct (f a) as [tr1 [b| |]]; simpl; try reflexivity.
  destruct (g b) as [tr2 r]. now rewrite app_assoc.
Qed.

Lemma io_bind_done {A B} (tr : list event) (a : A) (k : A -> io B) :
  io_bind (tr, Done a) k = (tr ++ (k a).1, (k a).2).
Proof. simpl. destruct (k a). reflexivity. Qed.

Lemma range_succ (n : nat) :
  range (Z.of_nat (S n)) = range (Z.of_nat n) ++ [Z.of_nat n].
Proof.
  unfold range. rewrite !Nat2Z.id, seq_S, map_app. reflexivity.
Qed.

Lemma range_length (n : nat) : length (range (Z.of_nat n)) = n.
Proof. unfold range. now rewrite length_map, length_seq, Nat2Z.id. Qed.

Lemma for_each_snoc {S X} (body : X -> S -> io S) (xs : list X) (x : X) (s : S) :
  for_each body (xs ++ [x]) s = io_bind (for_each body xs s) (body x).
Proof.
  revert s. induction xs as [|y xs IH]; intros s; simpl.
  - unfold mbind, io_mbind, mret, io_mret, io_bind, io_ret.
    destruct (body x s) as [tr [s'| |]]; simpl; try reflexivity.
    now rewrite app_nil_r.
  - unfold mbind, io_mbind. rewrite io_bind_assoc.
    destruct (body y s) as [tr [s'| |]]; simpl; try reflexivity.
    now rewrite IH.
Qed.

Lemma io_bind_done_inv {A B} (m : io A) (k : A -> io B) (tr : list event) (b : B) :
  io_bind m k = (tr, Done b) ->
  exists tr1 a tr2, m = (tr1, Done a) /\ k a = (tr2, Done b) /\ tr = tr1 ++ tr2.
Proof.
  destruct m as [tr1 [a| |]]; simpl; try discriminate.
  destruct (k a) as [tr2 r] eqn:Hk. intros [= <- ->].
  exists tr1, a, tr2. now rewrite Hk.
Qed.

Lemma range_to_nat (steps : Z) : range steps = range (Z.of_nat (Z.to_nat steps)).
Proof. unfold range. now rewrite Nat2Z.id. Qed.

Lemma filter_zip_fst {A B} (P : A -> bool) (l : list A) (k : list B) :
  length l = length k ->
  List.map fst (List.filter (fun p => P p.1) (zip l k)) = List.filter P l.
Proof.
  revert k. induction l as [|a l IH]; intros [|b k]; simpl; try discriminate.
  - reflexivity.
  - intros [= Hlen]. destruct (P a); simpl; now rewrite IH.
Qed.

(** ** Clipping, casting and channel order *)

Lemma clip_by_value_range (lo hi x : Q) :
  (lo <= hi)%Q -> (lo <= Tf.clip_elem lo hi x <= hi)%Q.
Proof.
  intros Hle. unfold Tf.clip_elem.
  destruct (Q.min_spec x hi) as [[? E1]|[? E1]],
           (Q.max_spec (Qmin x hi) lo) as [[? E2]|[? E2]]; lra.
Qed.

(** What [assign_add] of the clipped value stores: [x + clip x], which is
    inside the interval exactly when [2 * x] is. *)
Lemma assign_add_clip_elem (eps x : Q) :
  (0 <= eps)%Q ->
  (- eps <= x + Tf.clip_elem (- eps) eps x <= eps)%Q
  <-> (- eps <= 2 * x <= eps)%Q.
Proof.
  intros He. unfold Tf.clip_elem.
  destruct (Q.min_spec x eps) as [[? E1]|[? E1]],
           (Q.max_spec (Qmin x eps) (- eps)) as [[? E2]|[? E2]];
    split; intros; lra.
Qed.

Lemma np_clip_range (x : Q) : (0 <= Np.clip_elem 0 255 x <= 255)%Q.
Proof.
  unfold Np.clip_elem.
  destruct (Q.max_spec x 0) as [[? E1]|[? E1]],
           (Q.min_spec (Qmax x 0) 255) as [[? E2]|[? E2]]; lra.
Qed.

(** On a clipped value the cast neither wraps nor rounds up: it is the
    floor, between 0 and 255. *)
Lemma uint8_of_clipped (x : Q) :
  let c := Np.clip_elem 0 255 x in
  Np.uint8_of c = Qfloor c /\ (0 <= Qfloor c <= 255)%Z.
Proof.
  intros c. pose proof (np_clip_range x) as [H0 H255]. fold c in H0, H255.
  assert (0 <= Qfloor c <= 255)%Z as Hr.
  { split.
    - change 0%Z with (Qfloor (inject_Z 0)). now apply Qfloor_resp_le.
    - change 255%Z with (Qfloor (inject_Z 255)). now apply Qfloor_resp_le. }
  split; [|exact Hr].
  unfold Np.uint8_of, Np.truncate.
  apply Qle_bool_iff in H0. rewrite H0. apply Z.mod_small. lia.
Qed.

Lemma list_ind3 {A} (P : list A -> Prop) :
  P [] -> (forall a, P [a]) -> (forall a b, P [a; b]) ->
  (forall a b c l, P l -> P (a :: b :: c :: l)) ->
  forall l, P l.
Proof.
  intros H0 H1 H2 H3 l.
  enough (P l /\ (forall a, P (a :: l)) /\ (forall a b, P (a :: b :: l))) by tauto.
  induction l as [|c l (IH0 & IH1 & IH2)]; auto.
Qed.

Lemma swap_channels_involutive {A} (l : list A) :
  Cv.swap_channels (Cv.swap_channels l) = l.
Proof. induction l using list_ind3; simpl; congruence. Qed.

Lemma swap_channels_Forall {A} (P : A -> Prop) (l : list A) :
  Forall P l -> Forall P (Cv.swap_channels l).
Proof.
  induction l using list_ind3; simpl; auto.
  intros (Ha & (Hb & (Hc & Hl)%Forall_cons)%Forall_cons)%Forall_cons.
  repeat constructor; auto.
Qed.

(** The buffer handed to [cv2.imwrite], element by element. *)
Lemma adversarial_image_data (b d : tensor) :
  data (adversarial_image b d)
  = Cv.swap_channels
      (List.map (fun q => Qfloor (Np.clip_elem 0 255 q)) (data (Tf.add b d))).
Proof.
  unfold adversarial_image. simpl. f_equal.
  rewrite List.map_map. apply List.map_ext. intros q.
  apply (uint8_of_clipped q).
Qed.

Lemma adversarial_image_range (b d : tensor) :
  Forall (fun v => 0 <= v <= 255)%Z (data (adversarial_image b d)).
Proof.
  rewrite adversarial_image_data. apply swap_channels_Forall, List.Forall_forall.
  intros v (q & <- & _)%in_map_iff. apply (uint8_of_clipped q).
Qed.

(** ** The optimization loop *)

Section Optimizer.
Context `{F : Framework}.

(** A pass with integer class indices runs to its end; its events and
    the store it leaves are spelled out. *)
Lemma loop_body_int (o t k : Z) (st : store) :
  let adversary := preprocess_input (Tf.add (st_baseImage st) (st_delta st)) in
  let totalLoss := recorded_loss st o t (st_delta st) in
  let gradients := tape_gradient (recorded_loss st o t) (st_delta st) in
  let updated := (apply_gradients (st_optimizer st) gradients (st_delta st)).2 in
  loop_body (Some o) (Some t) k st
  = (Forward adversary
       :: (if (k mod 10 =? 0)%Z then [Print (MsgStepLoss k totalLoss)] else [])
       ++ [TapeGradient totalLoss; ApplyGradients gradients],
     Done {| st_model := (model_call (st_model st) false adversary).2;
             st_baseImage := st_baseImage st;
             st_epsilon := st_epsilon st;
             st_optimizer := (apply_gradients (st_optimizer st) gradients (st_delta st)).1;
             st_delta := Tf.add updated (clip_eps updated (st_epsilon st)) |}).
Proof.
  intros adversary totalLoss gradients updated.
  subst adversary totalLoss gradients updated.
  unfold loop_body, recorded_loss.
  destruct (model_call _ false _) as [predictions weights] eqn:Hcall.
  destruct (k mod 10 =? 0)%Z; simpl;
    destruct (apply_gradients _ _ _) as [slots upd] eqn:Hupd; reflexivity.
Qed.

(** After a pass the variable holds, element by element, the optimizer's
    result plus its clipped copy: line 69 is [assign_add], not [assign]. *)
Lemma pass_stores_sum (o t k : Z) (st st' : store) (tr : list event) :
  loop_body (Some o) (Some t) k st = (tr, Done st') ->
  let gradients := tape_gradient (recorded_loss st o t) (st_delta st) in
  let updated := (apply_gradients (st_optimizer st) gradients (st_delta st)).2 in
  data (st_delta st')
  = List.map (fun u => (u + Tf.clip_elem (- st_epsilon st) (st_epsilon st) u)%Q)
      (data updated).
Proof.
  rewrite loop_body_int. intros [= _ <-]. simpl.
  generalize (data (apply_gradients (st_optimizer st)
                      (tape_gradient (recorded_loss st o t) (st_delta st))
                      (st_delta st)).2).
  intros l. induction l as [|u l IH]; simpl; [reflexivity|]. now rewrite IH.
Qed.

(** X4: with a non-negative [epsilon], the perturbation is inside
    [-epsilon, epsilon] after a pass exactly when the optimizer's result is
    inside half that interval (twice each of its elements is inside). *)
Lemma pass_bound_iff (o t k : Z) (st st' : store) (tr : list event) :
  (0 <= st_epsilon st)%Q ->
  loop_body (Some o) (Some t) k st = (tr, Done st') ->
  let gradients := tape_gradient (recorded_loss st o t) (st_delta st) in
  let updated := (apply_gradients (st_optimizer st) gradients (st_delta st)).2 in
  Forall (fun x => (- st_epsilon st <= x <= st_epsilon st)%Q) (data (st_delta st'))
  <-> Forall (fun u => (- st_epsilon st <= 2 * u <= st_epsilon st)%Q) (data updated).
Proof.
  intros Heps Hrun gradients updated.
  rewrite (pass_stores_sum o t k st st' tr Hrun). fold gradients. fold updated.
  rewrite Forall_map. apply Forall_iff. intros u.
  now apply assign_add_clip_elem.
Qed.

Lemma generate_succ (b : tensor) (o t : option Z) (n : nat) (st : store) :
  generate_target_adversaries b o t (Z.of_nat (S n)) st
  = io_bind (generate_target_adversaries b o t (Z.of_nat n) st)
            (loop_body o t (Z.of_nat n)).
Proof.
  unfold generate_target_adversaries. now rewrite range_succ, for_each_snoc.
Qed.

Lemma generate_zero (b : tensor) (o t : option Z) (st : store) :
  generate_target_adversaries b o t 0 st = ([], Done st).
Proof. reflexivity. Qed.

(** What the readers of a trace see of one pass. *)
Lemma pass_events (a g : tensor) (k : Z) (l : Q) (c : bool) :
  let evs := Forward a :: (if c then [Print (MsgStepLoss k l)] else [])
               ++ [TapeGradient l; ApplyGradients g] in
  forward_calls evs = [a] /\ gradient_updates evs = [g]
  /\ tape_losses evs = [l]
  /\ printed_losses evs = (if c then [(k, l)] else [])
  /\ forallb loop_event evs = true.
Proof. destruct c; repeat split; reflexivity. Qed.

(** The loop with integer class indices: it ends normally, every reader
    sees one entry per pass, and the printed lines are the passes whose
    index is a multiple of ten. *)
Lemma generate_int_trace (b : tensor) (o t : Z) (n : nat) (st : store) :
  exists tr st',
    generate_target_adversaries b (Some o) (Some t) (Z.of_nat n) st = (tr, Done st')
    /\ length (forward_calls tr) = n
    /\ length (gradient_updates tr) = n
    /\ length (tape_losses tr) = n
    /\ printed_losses tr
       = List.filter (fun p => (p.1 mod 10 =? 0)%Z)
           (zip (range (Z.of_nat n)) (tape_losses tr))
    /\ forallb loop_event tr = true.
Proof.
  induction n as [|n (tr & st' & Hrun & Hf & Hg & Hl & Hp & He)].
  - exists [], st. repeat split; reflexivity.
  - rewrite generate_succ, Hrun, io_bind_done, loop_body_int. simpl fst; simpl snd.
    match goal with
    | |- context [Forward ?a :: (if ?c then [Print (MsgStepLoss ?k ?l)] else [])
                    ++ [TapeGradient ?l; ApplyGradients ?g]] =>
        destruct (pass_events a g k l c) as (Ef & Eg & El & Ep & Ee);
        cbv zeta in Ef, Eg, El, Ep, Ee
    end.
    eexists _, _. split; [reflexivity|].
    unfold forward_calls, gradient_updates, tape_losses, printed_losses in *.
    rewrite !omap_app, !length_app, Ef, Eg, El, Ep, Hf, Hg, Hl.
    rewrite forallb_app, He, Ee.
    repeat split; try (simpl; lia).
    rewrite range_succ.
    rewrite (zip_with_app pair) by (now rewrite range_length, Hl).
    rewrite List.filter_app, <- Hp. simpl.
    now destruct (Z.of_nat n mod 10 =? 0)%Z.
Qed.

Lemma generate_to_nat (b : tensor) (o t : option Z) (steps : Z) (st : store) :
  generate_target_adversaries b o t steps st
  = generate_target_adversaries b o t (Z.of_nat (Z.to_nat steps)) st.
Proof. unfold generate_target_adversaries. now rewrite range_to_nat. Qed.

(** C5: for every step budget [n] the loop makes exactly [n] passes (one
    classifier call and one optimizer update each) and ends normally,
    whatever losses the classifier and the loss object produce; the
    "step/loss" lines are printed exactly for the pass indices that are
    multiples of ten, each with the combined loss of its pass. *)
Theorem fixed_step_budget (b : tensor) (o t : Z) (n : nat) (st : store) :
  exists tr st',
    generate_target_adversaries b (Some o) (Some t) (Z.of_nat n) st = (tr, Done st')
    /\ length (forward_calls tr) = n
    /\ length (gradient_updates tr) = n
    /\ List.map fst (printed_losses tr)
       = List.filter (fun k => (k mod 10 =? 0)%Z) (range (Z.of_nat n))
    /\ printed_losses tr
       = List.filter (fun p => (p.1 mod 10 =? 0)%Z)
           (zip (range (Z.of_nat n)) (tape_losses tr)).
Proof.
  destruct (generate_int_trace b o t n st) as (tr & st' & Hrun & Hf & Hg & Hl & Hp & _).
  exists tr, st'. repeat split; try assumption.
  rewrite Hp. apply (filter_zip_fst (fun k => (k mod 10 =? 0)%Z)).
  now rewrite range_length, Hl.
Qed.

Lemma tape_loss_at (b : tensor) (o t : Z) (n : nat) (st : store) :
  forall (k : nat) (tr_k : list event) (st_k : store),
    k < n ->
    generate_target_adversaries b (Some o) (Some t) (Z.of_nat k) st = (tr_k, Done st_k) ->
    tape_losses (generate_target_adversaries b (Some o) (Some t) (Z.of_nat n) st).1 !! k
    = Some (recorded_loss st_k o t (st_delta st_k)).
Proof.
  induction n as [|n IH]; intros k tr_k st_k Hk Hrun_k; [lia|].
  destruct (generate_int_trace b o t n st) as (tr & st' & Hrun & _ & _ & Hl & _).
  rewrite generate_succ, Hrun, io_bind_done, loop_body_int. simpl fst.
  match goal with
  | |- context [Forward ?a :: (if ?c then [Print (MsgStepLoss ?j ?l)] else [])
                  ++ [TapeGradient ?l; ApplyGradients ?g]] =>
      destruct (pass_events a g j l c) as (_ & _ & El & _); cbv zeta in El
  end.
  unfold tape_losses in *. rewrite omap_app, El.
  destruct (decide (k = n)) as [->|Hne].
  - rewrite Hrun in Hrun_k. injection Hrun_k as <- <-.
    rewrite lookup_app_r by lia. now rewrite Hl, Nat.sub_diag.
  - rewrite lookup_app_l by lia.
    specialize (IH k tr_k st_k ltac:(lia) Hrun_k). now rewrite Hrun in IH.
Qed.

(** C2: in every pass [k] of the loop, the combined loss (the value
    handed to the tape, and printed on the reporting steps) is the negated
    cross-entropy of the classifier's scores with respect to the original
    class index plus the cross-entropy of the same scores with respect to
    the target class index, where the scores are those of the classifier
    on the normalized [baseImage + delta] of that pass. *)
Theorem combined_loss_each_step (b : tensor) (o t : Z) (n k : nat) (st : store)
    (tr_k : list event) (st_k : store) :
  k < n ->
  generate_target_adversaries b (Some o) (Some t) (Z.of_nat k) st = (tr_k, Done st_k) ->
  let scores :=
    (model_call (st_model st_k) false
       (preprocess_input (Tf.add (st_baseImage st_k) (st_delta st_k)))).1 in
  tape_losses (generate_target_adversaries b (Some o) (Some t) (Z.of_nat n) st).1 !! k
  = Some (- sccLoss [o] scores + sccLoss [t] scores)%Q.
Proof. intros Hk Hrun scores. now apply (tape_loss_at b o t n st k tr_k st_k). Qed.

Lemma loop_body_frame (o t : option Z) (k : Z) (st st' : store) (tr : list event) :
  (forall w x, (model_call w false x).2 = w) ->
  loop_body o t k st = (tr, Done st') ->
  st_baseImage st' = st_baseImage st /\ st_model st' = st_model st
  /\ st_epsilon st' = st_epsilon st.
Proof.
  intros Hinf. destruct o as [o|], t as [t|].
  - rewrite loop_body_int. intros [= _ <-]. simpl. auto.
  - unfold loop_body. destruct (model_call _ _ _). discriminate.
  - unfold loop_body. destruct (model_call _ _ _). discriminate.
  - unfold loop_body. destruct (model_call _ _ _). discriminate.
Qed.

Lemma generate_frame (b : tensor) (o t : option Z) (n : nat) :
  (forall w x, (model_call w false x).2 = w) ->
  forall (st st' : store) (tr : list event),
    generate_target_adversaries b o t (Z.of_nat n) st = (tr, Done st') ->
    st_baseImage st' = st_baseImage st /\ st_model st' = st_model st
    /\ st_epsilon st' = st_epsilon st.
Proof.
  intros Hinf. induction n as [|n IH]; intros st st' tr.
  - rewrite generate_zero. intros [= _ <-]. auto.
  - rewrite generate_succ.
    intros (tr1 & st1 & tr2 & Hrun & Hstep & _)%io_bind_done_inv.
    destruct (IH _ _ _ Hrun) as (Hb & Hm & He).
    destruct (loop_body_frame _ _ _ _ _ _ Hinf Hstep) as (Hb' & Hm' & He').
    repeat split; congruence.
Qed.

(** C8: after any number of passes the base image tensor and the
    classifier's weights (and [epsilon]) are what they were before the
    loop: the classifier is only called with [training=False], which by the
    framework's contract (the first hypothesis) leaves its variables alone,
    the gradient is taken in the perturbation, and the perturbation is the
    one variable handed to the optimizer.  Of the store, only [st_delta]
    and the optimizer's own slots are rewritten. *)
Theorem only_delta_is_mutated (b : tensor) (o t : option Z) (steps : Z)
    (st st' : store) (tr : list event) :
  (forall w x, (model_call w false x).2 = w) ->
  generate_target_adversaries b o t steps st = (tr, Done st') ->
  st_baseImage st' = st_baseImage st /\ st_model st' = st_model st
  /\ st_epsilon st' = st_epsilon st.
Proof.
  intros Hinf. rewrite generate_to_nat. intros Hrun.
  exact (generate_frame b o t _ Hinf _ _ _ Hrun).
Qed.

(** C9: the result of [generate_target_adversaries] is the same for any
    two values of its [base_image] argument, events and final store
    included: the body reads the module-level [baseImage]. *)
Theorem base_image_argument_unused (b1 b2 : tensor) (o t : option Z) (steps : Z)
    (st : store) :
  generate_target_adversaries b1 o t steps st
  = generate_target_adversaries b2 o t steps st.
Proof. reflexivity. Qed.
End Optimizer.

(** ** Events of the loop, whatever the class indices *)

Lemma for_each_events {S X} (P : event -> bool) (body : X -> S -> io S) :
  (forall x s, forallb P (body x s).1 = true) ->
  forall xs s, forallb P (for_each body xs s).1 = true.
Proof.
  intros Hbody xs. induction xs as [|x xs IH]; intros s; simpl; [reflexivity|].
  unfold mbind, io_mbind, io_bind.
  specialize (Hbody x s). destruct (body x s) as [tr [s'| |]]; simpl in *; try assumption.
  specialize (IH s'). destruct (for_each body xs s') as [tr' r]. simpl in *.
  now rewrite forallb_app, Hbody, IH.
Qed.

Lemma for_each_no_exit {S X} (body : X -> S -> io S) :
  (forall x s c, (body x s).2 <> Exited c) ->
  forall xs s c, (for_each body xs s).2 <> Exited c.
Proof.
  intros Hbody xs. induction xs as [|x xs IH]; intros s c; simpl; [discriminate|].
  unfold mbind, io_mbind, io_bind.
  specialize (Hbody x s). destruct (body x s) as [tr [s'| |]]; simpl in *.
  - specialize (IH s' c). now destruct (for_each body xs s') as [tr' r].
  - now apply Hbody.
  - discriminate.
Qed.

Lemma loop_events_silent (tr : list event) :
  forallb loop_event tr = true ->
  written_files tr = [] /\ predict_calls tr = [].
Proof.
  induction tr as [|e tr IH]; simpl; [auto|].
  intros [He Htr]%andb_true_iff. destruct (IH Htr) as (Hw & Hp).
  unfold written_files, predict_calls in *. simpl. rewrite Hw, Hp.
  destruct e as [[]| | | | | | | | |]; try discriminate; auto.
Qed.

Lemma whole_in_range_of_cast (q : Q) :
  (inject_Z (Qfloor (Np.clip_elem 0 255 q)) == q)%Q ->
  (0 <= q <= 255)%Q /\ is_integer q.
Proof.
  intros Heq. destruct (uint8_of_clipped q) as [_ [H0 H255]]. cbv zeta in H0, H255.
  set (z := Qfloor (Np.clip_elem 0 255 q)) in *.
  split.
  - rewrite <- Heq. split.
    + change 0%Q with (inject_Z 0). now rewrite <- Zle_Qle.
    + change 255%Q with (inject_Z 255). now rewrite <- Zle_Qle.
  - unfold is_integer. rewrite <- Heq at 1. now rewrite Qfloor_Z.
Qed.

(** Read back as floats in RGB order, the written image is not the tensor
    [b + d] as soon as one element of [b + d] is not a whole number
    between 0 and 255. *)
Lemma written_image_differs (b d : tensor) :
  Exists (fun q => ~ (0 <= q <= 255)%Q \/ ~ is_integer q) (data (Tf.add b d)) ->
  ~ Forall2 Qeq
      (List.map inject_Z (Cv.swap_channels (data (adversarial_image b d))))
      (data (Tf.add b d)).
Proof.
  rewrite adversarial_image_data, swap_channels_involutive.
  generalize (data (Tf.add b d)). intros l Hex Hall.
  induction l as [|q l IH]; [inversion Hex|].
  simpl in Hall. apply Forall2_cons in Hall as [Hq Hl].
  apply Exists_cons in Hex as [Hbad|Hex]; [|now apply IH].
  destruct (whole_in_range_of_cast q Hq) as [Hr Hi]. tauto.
Qed.

Section Driver.
Context `{F : Framework}.

Lemma loop_body_events (o t : option Z) (k : Z) (st : store) :
  forallb loop_event (loop_body o t k st).1 = true.
Proof.
  destruct o as [o|], t as [t|].
  - rewrite loop_body_int. simpl. now destruct (k mod 10 =? 0)%Z.
  - unfold loop_body. now destruct (model_call _ _ _).
  - unfold loop_body. now destruct (model_call _ _ _).
  - unfold loop_body. now destruct (model_call _ _ _).
Qed.

Lemma loop_body_no_exit (o t : option Z) (k : Z) (st : store) (c : Z) :
  (loop_body o t k st).2 <> Exited c.
Proof.
  destruct o as [o|], t as [t|].
  - now rewrite loop_body_int.
  - unfold loop_body. now destruct (model_call _ _ _).
  - unfold loop_body. now destruct (model_call _ _ _).
  - unfold loop_body. now destruct (model_call _ _ _).
Qed.

Lemma generate_events (b : tensor) (o t : option Z) (steps : Z) (st : store) :
  forallb loop_event (generate_target_adversaries b o t steps st).1 = true.
Proof. apply for_each_events, loop_body_events. Qed.

Lemma generate_no_exit (b : tensor) (o t : option Z) (steps : Z) (st : store) (c : Z) :
  (generate_target_adversaries b o t steps st).2 <> Exited c.
Proof. apply for_each_no_exit, loop_body_no_exit. Qed.

(** The attack, path by path: its events and its end. *)
Lemma attack_unfold (m : gmap string Z) (file target : string) (i : Z) :
  attack m file target i =
  let hdr := [Print (MsgInputFilename file); Print (MsgTargetClass target);
              Print (MsgTargetIndex i); Imread file] in
  match imread file with
  | None => (hdr, Raised CvError)
  | Some img =>
    let input_image := Np.expand_dims0 (resize (Cv.cvtColor img) 224 224) in
    let baseImage := Tf.constant input_image in
    let x0 := preprocess_input baseImage in
    let first := model_call ResNet50 false x0 in
    let tr1 := hdr ++ [LoadModel "ResNet50"; Predict "ResNet50" x0;
                       Print (MsgTop3 (decode_predictions first.1))] in
    match decode_predictions first.1 with
    | [] => (tr1, Raised IndexError)
    | top :: _ =>
      let original_index := get_target_class_index m top.1.2 in
      let tr2 := tr1 ++ [Print (MsgOriginalIndex original_index)] in
      match generate_target_adversaries baseImage original_index (Some i) 100
              (mk_store first.2 baseImage (2 / 255)%Q (Adam (1 / 100)%Q)
                 (Tf.zeros_like baseImage)) with
      | (tr, Exited c) => (tr2 ++ tr, Exited c)
      | (tr, Raised e) => (tr2 ++ tr, Raised e)
      | (tr, Done st) =>
        let x := Tf.add baseImage (st_delta st) in
        let adverImage := adversarial_image baseImage (st_delta st) in
        let preds :=
          decode_predictions (model_call (st_model st) false (preprocess_input x)).1 in
        let tr3 := tr2 ++ tr ++ [Imwrite "output.png" adverImage;
                                 Predict "ResNet50" (preprocess_input x);
                                 Print (MsgTop3Adversarial preds)] in
        match preds with
        | [] => (tr3, Raised IndexError)
        | top2 :: _ =>
          let shown := putText adverImage top2.1.2 (top2.2 * 100)%Q in
          let x2 := mobilenet_preprocess_input x in
          (tr3 ++ [Imshow "Output" shown; WaitKey; LoadModel "MobileNetV2";
                   Predict "MobileNetV2" x2;
                   Print (MsgTop3MobileNet
                            (mobilenet_decode_predictions (mobilenet_predict x2)))],
           Done (mk_namespace input_image baseImage (st_delta st) shown))
        end
      end
    end
  end.
Proof.
  unfold attack, preprocess_image, cv2_cvtColor.
  destruct (imread file) as [img|]; simpl; [|reflexivity].
  destruct (model_call ResNet50 false _) as [predictions weights]; simpl.
  destruct (decode_predictions predictions) as [|top tops]; simpl; [reflexivity|].
  destruct (generate_target_adversaries _ _ _ _ _) as [tr [st| |]]; simpl;
    try reflexivity.
  destruct (decode_predictions _) as [|top2 tops2]; simpl.
  - repeat f_equal.
  - rewrite <- !app_assoc. reflexivity.
Qed.

(** C4: when the normalized target class name is not a key of the label
    index map, the script prints its banner and the error line and exits
    with code 0, and nothing else happens: no image is read, no model is
    loaded, no optimization is run.  When the name is a key, the script
    goes on to echo its inputs and read the image, and however it ends, it
    does not end by an exit and never prints the error line. *)
Theorem target_check (m : gmap string Z) (file target : string) :
  let banner := [Print (MsgTfVersion tf_version);
                 Print (MsgGpu (negb (String.eqb gpu_device_name "")))] in
  (m !! normalize_label target = None ->
     main m file target = (banner ++ [Print MsgTargetMissing], Exited 0))
  /\ (forall i : Z, m !! normalize_label target = Some i ->
        exists tr r,
          main m file target
          = (banner ++ [Print (MsgInputFilename file); Print (MsgTargetClass target);
                        Print (MsgTargetIndex i); Imread file] ++ tr, r)
          /\ (forall c, r <> Exited c)
          /\ forallb (fun e => match e with
                               | Print MsgTargetMissing => false
                               | _ => true
                               end) tr = true).
Proof.
  intros banner. subst banner.
  set (quiet := fun e : event =>
                  match e with Print MsgTargetMissing => false | _ => true end).
  assert (forall tr, forallb loop_event tr = true -> forallb quiet tr = true) as Hquiet.
  { induction tr as [|e tr IH]; simpl; [reflexivity|].
    intros [He Htr]%andb_true_iff. rewrite (IH Htr).
    now destruct e as [[]| | | | | | | | |]. }
  unfold main, get_target_class_index. split.
  - intros ->. reflexivity.
  - intros i ->. rewrite attack_unfold. cbv zeta.
    destruct (imread file) as [img|]; simpl.
    2: { exists [], (Raised CvError). repeat split; discriminate. }
    destruct (decode_predictions _) as [|top tops]; simpl.
    { eexists _, _. split; [reflexivity|]. split; [discriminate|reflexivity]. }
    match goal with
    | |- context [generate_target_adversaries ?b ?o ?t ?n ?st] =>
        pose proof (generate_events b o t n st) as Hev;
        pose proof (generate_no_exit b o t n st) as Hne;
        destruct (generate_target_adversaries b o t n st) as [tr [st'| |]]
    end; simpl in Hev, Hne; apply Hquiet in Hev.
    + destruct (decode_predictions _) as [|top2 tops2]; simpl;
        (eexists _, _; split; [reflexivity|]; split; [discriminate|]);
        simpl; rewrite !forallb_app, Hev; reflexivity.
    + now destruct (Hne code).
    + eexists _, _. split; [reflexivity|]. split; [discriminate|].
      simpl. exact Hev.
Qed.

(** Whatever [cv2.imwrite] is given in a run, in terms of the run's own
    values: the preprocessed input image and the store the loop left. *)
Lemma main_writes (m : gmap string Z) (file target : string)
    (path : string) (img : ndarray Z) :
  In (path, img) (written_files (main m file target).1) ->
  exists (i : Z) (input_image : ndarray Z) (top : prediction) (rest : list prediction)
         (tr_loop : list event) (st : store),
    let baseImage := Tf.constant input_image in
    let first := model_call ResNet50 false (preprocess_input baseImage) in
    m !! normalize_label target = Some i
    /\ preprocess_image (imread file) = ([], Done input_image)
    /\ decode_predictions first.1 = top :: rest
    /\ generate_target_adversaries baseImage (get_target_class_index m top.1.2)
         (Some i) 100
         (mk_store first.2 baseImage (2 / 255)%Q (Adam (1 / 100)%Q)
            (Tf.zeros_like baseImage))
       = (tr_loop, Done st)
    /\ (forall ns, (main m file target).2 = Done ns ->
          ns_baseImage ns = baseImage /\ ns_deltaUpdated ns = st_delta st)
    /\ path = "output.png"
    /\ img = adversarial_image baseImage (st_delta st).
Proof.
  unfold main.
  destruct (get_target_class_index m target) as [i|] eqn:Ht; [|intros []].
  unfold get_target_class_index in Ht.
  rewrite attack_unfold. cbv zeta.
  destruct (imread file) as [im|]; [|intros []].
  destruct (decode_predictions
              (model_call ResNet50 false
                 (preprocess_input
                    (Tf.constant (Np.expand_dims0 (resize (Cv.cvtColor im) 224 224))))).1)
    as [|top tops] eqn:Hdec; [intros []|].
  match goal with
  | |- context [generate_target_adversaries ?b ?o ?t ?n ?st] =>
      pose proof (generate_events b o t n st) as Hev;
      destruct (generate_target_adversaries b o t n st) as [gtr [st'| |]] eqn:Hgen
  end; simpl in Hev; apply loop_events_silent in Hev as (Hw & _);
    unfold written_files in *.
  - destruct (decode_predictions (model_call (st_model st') _ _).1)
      as [|top2 tops2] eqn:Hdec2; simpl; rewrite ?omap_app, Hw; simpl;
      (intros [[= <- <-]|[]];
       exists i, (Np.expand_dims0 (resize (Cv.cvtColor im) 224 224)), top, tops, gtr, st';
       cbv zeta; repeat split; try assumption; try reflexivity).
    all: match goal with
         | Hd : _ = Done ?n |- _ =>
             simpl in Hd;
             first [discriminate Hd | (injection Hd as Hd; subst n; reflexivity)]
         end.
  - simpl. unfold omap in Hw. rewrite Hw. intros [].
  - simpl. unfold omap in Hw. rewrite Hw. intros [].
Qed.

(** C7: the one file the script writes is output.png, and what it holds is
    the run's own tensor [baseImage + delta] (the preprocessed input image
    as floats, plus the perturbation the loop left), axes of length one
    dropped, each element clipped to [0, 255] and cast to an 8-bit integer,
    channels back in BGR order.  Element by element the written value is
    the floor of [min (max q 0) 255]: a whole number between 0 and 255; the
    cast neither wraps nor changes the clipped value further. *)
Theorem persisted_pixels_in_display_range (m : gmap string Z) (file target : string)
    (path : string) (img : ndarray Z) :
  In (path, img) (written_files (main m file target).1) ->
  exists (i : Z) (input_image : ndarray Z) (top : prediction) (rest : list prediction)
         (tr_loop : list event) (st : store),
    let baseImage := Tf.constant input_image in
    let first := model_call ResNet50 false (preprocess_input baseImage) in
    m !! normalize_label target = Some i
    /\ preprocess_image (imread file) = ([], Done input_image)
    /\ decode_predictions first.1 = top :: rest
    /\ generate_target_adversaries baseImage (get_target_class_index m top.1.2)
         (Some i) 100
         (mk_store first.2 baseImage (2 / 255)%Q (Adam (1 / 100)%Q)
            (Tf.zeros_like baseImage))
       = (tr_loop, Done st)
    /\ (forall ns, (main m file target).2 = Done ns ->
          ns_baseImage ns = baseImage /\ ns_deltaUpdated ns = st_delta st)
    /\ path = "output.png"
    /\ shape img = List.filter (fun d => negb (d =? 1)%nat) (shape baseImage)
    /\ data img
       = Cv.swap_channels
           (List.map (fun q => Qfloor (Qmin (Qmax q 0) 255))
              (data (Tf.add baseImage (st_delta st))))
    /\ Forall (fun v => 0 <= v <= 255)%Z (data img).
Proof.
  intros Hin.
  destruct (main_writes m file target path img Hin)
    as (i & input_image & top & rest & tr_loop & st & H).
  cbv zeta in H. destruct H as (Ht & Hpre & Hdec & Hgen & Hns & Hpath & ->).
  exists i, input_image, top, rest, tr_loop, st. cbv zeta.
  repeat (split; [assumption|]).
  split; [reflexivity|]. split; [apply adversarial_image_data|].
  apply adversarial_image_range.
Qed.

(** C10: in a run that reaches its end, the tensor handed (after each
    classifier's own normalization) to the first classifier and to the
    transfer classifier is the float tensor [baseImage + delta], while the
    file output.png holds the clipped 8-bit image; as soon as one element
    of [baseImage + delta] is outside [0, 255] or is not a whole number,
    the written image, read back as floats in RGB order, is not that
    tensor. *)
Theorem classified_tensor_is_not_the_written_image (m : gmap string Z)
    (file target : string) (tr : list event) (ns : namespace) :
  main m file target = (tr, Done ns) ->
  let x := Tf.add (ns_baseImage ns) (ns_deltaUpdated ns) in
  let written := adversarial_image (ns_baseImage ns) (ns_deltaUpdated ns) in
  predict_calls tr
  = [("ResNet50", preprocess_input (Tf.constant (ns_input_image ns)));
     ("ResNet50", preprocess_input x);
     ("MobileNetV2", mobilenet_preprocess_input x)]
  /\ written_files tr = [("output.png", written)]
  /\ (Exists (fun q => ~ (0 <= q <= 255)%Q \/ ~ is_integer q) (data x) ->
      ~ Forall2 Qeq (List.map inject_Z (Cv.swap_channels (data written))) (data x)).
Proof.
  unfold main, get_target_class_index.
  destruct (m !! normalize_label target) as [i|]; [|discriminate].
  rewrite attack_unfold. cbv zeta.
  destruct (imread file) as [img|]; [|discriminate].
  destruct (decode_predictions _) as [|top tops]; [discriminate|].
  match goal with
  | |- context [generate_target_adversaries ?b ?o ?t ?n ?st] =>
      pose proof (generate_events b o t n st) as Hev;
      destruct (generate_target_adversaries b o t n st) as [gtr [st'| |]]
  end; try discriminate.
  simpl in Hev. apply loop_events_silent in Hev as (Hw & Hp).
  destruct (decode_predictions _) as [|top2 tops2]; [discriminate|].
  intros [= <- <-]. cbv zeta. cbn [ns_baseImage ns_deltaUpdated ns_input_image].
  split; [|split].
  - unfold predict_calls in *. simpl. now rewrite !omap_app, Hp.
  - unfold written_files in *. simpl. now rewrite !omap_app, Hw.
  - apply written_image_differs.
Qed.

(** C6 (amended): [preprocess_image] converts BGR to RGB, resizes to
    224x224 and adds a leading batch axis, so that a 3-channel image comes
    out with shape (1, 224, 224, 3) (given that [cv2.resize] returns the
    size it is asked for); it does not normalize.  The classifier's
    normalization is a separate call made by the driver on that output,
    and the base tensor of the attack is the output as it is. *)
Theorem preprocess_image_contract (img : ndarray Z) (h0 w0 : nat) :
  shape img = [h0; w0; 3%nat] ->
  (forall (im : ndarray Z) (w h a b c : nat),
      shape im = [a; b; c] -> shape (resize im w h) = [h; w; c]) ->
  exists out : ndarray Z,
    preprocess_image (Some img) = ([], Done out)
    /\ out = Np.expand_dims0 (resize (Cv.cvtColor img) 224 224)
    /\ shape out = [1; 224; 224; 3]%nat
    /\ forall (m : gmap string Z) (file target : string) (i : Z),
         imread file = Some img ->
         exists tr r,
           attack m file target i
           = ([Print (MsgInputFilename file); Print (MsgTargetClass target);
               Print (MsgTargetIndex i); Imread file; LoadModel "ResNet50";
               Predict "ResNet50" (preprocess_input (Tf.constant out))] ++ tr, r)
           /\ forall ns, r = Done ns ->
                ns_input_image ns = out /\ ns_baseImage ns = Tf.constant out.
Proof.
  intros Hshape Hresize.
  exists (Np.expand_dims0 (resize (Cv.cvtColor img) 224 224)).
  split; [reflexivity|]. split; [reflexivity|]. split.
  { simpl. f_equal. now apply (Hresize _ _ _ h0 w0). }
  intros m file target i Hread. rewrite attack_unfold, Hread. cbv zeta.
  destruct (decode_predictions _) as [|top tops].
  { eexists _, _. split; [reflexivity|]. discriminate. }
  destruct (generate_target_adversaries _ _ _ _ _) as [tr [st'| |]].
  - destruct (decode_predictions _) as [|top2 tops2].
    + eexists _, _. split; [reflexivity|]. discriminate.
    + eexists _, _. split; [simpl; rewrite <- !app_assoc; reflexivity|].
      now intros ns [= <-].
  - eexists _, _. split; [reflexivity|]. discriminate.
  - eexists _, _. split; [reflexivity|]. discriminate.
Qed.
End Driver.

(** ** The label resolver *)

Lemma all_ascii_complete (c : ascii) : In c all_ascii.
Proof.
  unfold all_ascii. rewrite <- (ascii_nat_embedding c).
  apply in_map, in_seq. pose proof (nat_ascii_bounded c). lia.
Qed.

Lemma char_variant_table :
  forallb (fun a => forallb (fun b =>
    implb (char_variant a b)
          (Ascii.eqb (normalize_char a) (normalize_char b))) all_ascii)
    all_ascii = true.
Proof. vm_compute. reflexivity. Qed.

Lemma char_variant_normalize (a b : ascii) :
  char_variant a b = true -> normalize_char a = normalize_char b.
Proof.
  intros Hv. pose proof char_variant_table as T.
  rewrite forallb_forall in T. specialize (T a (all_ascii_complete a)).
  rewrite forallb_forall in T. specialize (T b (all_ascii_complete b)).
  rewrite Hv in T. simpl in T. now apply Ascii.eqb_eq.
Qed.

Lemma normalize_label_cons (c : ascii) (s : string) :
  normalize_label (String c s) = String (normalize_char c) (normalize_label s).
Proof. reflexivity. Qed.

Lemma label_variant_normalize (s t : string) :
  label_variant s t = true -> normalize_label s = normalize_label t.
Proof.
  revert t; induction s as [|a s IH]; intros [|b t]; simpl; try discriminate.
  - reflexivity.
  - intros [Hc Hr]%andb_true_iff.
    rewrite !normalize_label_cons, (char_variant_normalize a b Hc), (IH t Hr).
    reflexivity.
Qed.

(** C3: two labels that differ only in letter case and in underscores
    written for spaces resolve alike, and the result is the entry of the map
    at the lowercased label with underscores replaced by spaces: the index
    when that key is present, [None] when it is not. *)
Theorem resolver_ignores_case_and_underscores (mapping_dict : gmap string Z)
    (s t : string) :
  label_variant s t = true ->
  get_target_class_index mapping_dict s = get_target_class_index mapping_dict t
  /\ get_target_class_index mapping_dict s
     = mapping_dict !! PyStr.replace "_" " " (PyStr.lower s).
Proof.
  intros Hv. unfold get_target_class_index.
  rewrite (label_variant_normalize s t Hv). split; [reflexivity|].
  now rewrite <- (label_variant_normalize s t Hv).
Qed.

Example resolve_soccer_ball :
  let m : gmap string Z := {[ "soccer ball" := 805%Z ]} in
  get_target_class_index m "Soccer_Ball" = Some 805%Z
  /\ get_target_class_index m "soccer ball" = Some 805%Z
  /\ get_target_class_index m "SOCCER_BALL" = Some 805%Z
  /\ get_target_class_index m "football" = None.
Proof. vm_compute. repeat split. Qed.

(** ** Runs on the small framework *)

(** C1: the clipping does not bound the perturbation.  Line 69 adds the
    clipped tensor to the variable instead of storing it, so that one pass
    from the zero perturbation already leaves elements of magnitude
    1/100 + 2/255 (the optimizer's move plus its clipped copy), outside
    [-2/255, 2/255]. *)
Theorem delta_leaves_the_epsilon_interval :
  exists tr st',
    @generate_target_adversaries (Fixture.framework Fixture.no_resize)
      (st_baseImage Fixture.store0) (Some 0%Z) (Some 1%Z) 1 Fixture.store0
    = (tr, Done st')
    /\ st_epsilon st' = (2 # 255)%Q
    /\ data (st_delta st') = [0%Q; (455 # 25500)%Q; (- 455 # 25500)%Q]
    /\ Exists (fun x => ~ (- st_epsilon st' <= x <= st_epsilon st')%Q)
         (data (st_delta st')).
Proof.
  eexists _, _. split; [vm_compute; reflexivity|]. simpl.
  split; [reflexivity|]. split; [reflexivity|].
  apply Exists_cons_tl, Exists_cons_hd. intros [_ H]. revert H. now vm_compute.
Qed.

(** C6, as stated, fails: on a 1x1 image with nearest-neighbour resizing,
    the output of [preprocess_image] has the shape (1, 224, 224, 3) but
    holds the raw channel values, not their normalization. *)
Lemma preprocess_image_output_is_not_normalized :
  exists out : ndarray Z,
    @preprocess_image (Fixture.framework Fixture.nearest_resize) (Some Fixture.cat_png)
    = ([], Done out)
    /\ shape out = [1; 224; 224; 3]%nat
    /\ ~ Forall2 Qeq
         (data (Tf.constant out))
         (data (@preprocess_input (Fixture.framework Fixture.nearest_resize)
                  (Tf.constant
                     (Np.expand_dims0
                        (Fixture.nearest_resize (Cv.cvtColor Fixture.cat_png) 224 224))))).
Proof.
  eexists. split; [reflexivity|]. split; [reflexivity|].
  intros Hall.
  assert ((250 == - (93939 # 1000))%Q) as Habs; [|now vm_compute in Habs].
  apply (Forall2_lookup_lr _ _ _ 0 _ _ Hall); vm_compute; reflexivity.
Qed.

(** The third pass of a three-pass run on the small framework. *)
Lemma combined_loss_each_step_witness :
  (2 < 3)%nat
  /\ Fixture.run 2 = ((Fixture.run 2).1, Done (Fixture.store_after 2))
  /\ tape_losses (Fixture.run 3).1 !! 2%nat
     = Some (let scores :=
               (@model_call (Fixture.framework Fixture.no_resize)
                  (st_model (Fixture.store_after 2)) false
                  (Fixture.caffe_preprocess_input
                     (Tf.add (st_baseImage (Fixture.store_after 2))
                        (st_delta (Fixture.store_after 2))))).1 in
             (- Fixture.affine_loss [0%Z] scores + Fixture.affine_loss [1%Z] scores)%Q).
Proof.
  split; [lia|]. split; [vm_compute; reflexivity|].
  apply (@combined_loss_each_step (Fixture.framework Fixture.no_resize)
           (st_baseImage Fixture.store0) 0%Z 1%Z 3 2 Fixture.store0
           (Fixture.run 2).1 (Fixture.store_after 2)).
  - lia.
  - vm_compute; reflexivity.
Defined.

(** Three passes on the small framework, whose classifier keeps its
    variables in inference mode and changes them in training mode. *)
Lemma only_delta_is_mutated_witness :
  (forall w x, (@model_call (Fixture.framework Fixture.no_resize) w false x).2 = w)
  /\ Fixture.run 3 = ((Fixture.run 3).1, Done (Fixture.store_after 3))
  /\ st_baseImage (Fixture.store_after 3) = st_baseImage Fixture.store0
  /\ st_model (Fixture.store_after 3) = st_model Fixture.store0
  /\ st_epsilon (Fixture.store_after 3) = st_epsilon Fixture.store0.
Proof.
  split; [reflexivity|]. split; [vm_compute; reflexivity|].
  apply (@only_delta_is_mutated (Fixture.framework Fixture.no_resize)
           (st_baseImage Fixture.store0) (Some 0%Z) (Some 1%Z) 3
           Fixture.store0 (Fixture.store_after 3) (Fixture.run 3).1).
  - reflexivity.
  - vm_compute; reflexivity.
Defined.

(** Two spellings of one label. *)
Lemma resolver_ignores_case_and_underscores_witness :
  label_variant "Soccer_Ball" "SOCCER BALL" = true
  /\ get_target_class_index Fixture.imagenet_index "Soccer_Ball"
     = get_target_class_index Fixture.imagenet_index "SOCCER BALL"
  /\ get_target_class_index Fixture.imagenet_index "Soccer_Ball"
     = Fixture.imagenet_index !! PyStr.replace "_" " " (PyStr.lower "Soccer_Ball").
Proof.
  split; [reflexivity|].
  apply (resolver_ignores_case_and_underscores Fixture.imagenet_index
           "Soccer_Ball" "SOCCER BALL").
  reflexivity.
Defined.

(** An unknown target class, and a known one. *)
Lemma target_check_witness :
  Fixture.imagenet_index !! normalize_label "dog" = None
  /\ @main (Fixture.framework Fixture.no_resize) Fixture.imagenet_index "cat.png" "dog"
     = ([Print (MsgTfVersion "2.3.0"); Print (MsgGpu false); Print MsgTargetMissing],
        Exited 0)
  /\ Fixture.imagenet_index !! normalize_label "Golf_Ball" = Some 1%Z
  /\ exists tr r,
       Fixture.golf_run
       = ([Print (MsgTfVersion "2.3.0"); Print (MsgGpu false);
           Print (MsgInputFilename "cat.png"); Print (MsgTargetClass "Golf_Ball");
           Print (MsgTargetIndex 1); Imread "cat.png"] ++ tr, r)
       /\ forall c, r <> Exited c.
Proof.
  pose proof (@target_check (Fixture.framework Fixture.no_resize)
                Fixture.imagenet_index "cat.png" "dog") as [Hdog _].
  pose proof (@target_check (Fixture.framework Fixture.no_resize)
                Fixture.imagenet_index "cat.png" "Golf_Ball") as [_ Hgolf].
  split; [reflexivity|]. split; [exact (Hdog eq_refl)|]. split; [reflexivity|].
  destruct (Hgolf 1%Z eq_refl) as (tr & r & Hrun & Hne & _).
  exists tr, r. split; [exact Hrun | exact Hne].
Defined.

(** A 1x1 image under nearest-neighbour resizing. *)
Lemma preprocess_image_contract_witness :
  shape Fixture.cat_png = [1; 1; 3]%nat
  /\ (forall (im : ndarray Z) (w h a b c : nat),
        shape im = [a; b; c] -> shape (Fixture.nearest_resize im w h) = [h; w; c])
  /\ exists out : ndarray Z,
       @preprocess_image (Fixture.framework Fixture.nearest_resize) (Some Fixture.cat_png)
       = ([], Done out)
       /\ shape out = [1; 224; 224; 3]%nat.
Proof.
  assert (forall (im : ndarray Z) (w h a b c : nat),
             shape im = [a; b; c] -> shape (Fixture.nearest_resize im w h) = [h; w; c])
    as Hresize.
  { intros im w h a b c Him. unfold Fixture.nearest_resize. now rewrite Him. }
  split; [reflexivity|]. split; [exact Hresize|].
  destruct (@preprocess_image_contract (Fixture.framework Fixture.nearest_resize)
              Fixture.cat_png 1 1 eq_refl Hresize) as (out & Hrun & _ & Hshape & _).
  exists out. split; [exact Hrun | exact Hshape].
Defined.

(** The image written by the run on cat.png. *)
Lemma persisted_pixels_in_display_range_witness :
  In ("output.png", Fixture.output_png) (written_files Fixture.golf_run.1)
  /\ data Fixture.output_png = [8; 121; 250]%Z
  /\ Forall (fun v => 0 <= v <= 255)%Z (data Fixture.output_png).
Proof.
  assert (In ("output.png", Fixture.output_png) (written_files Fixture.golf_run.1)) as Hin.
  { vm_compute. left. reflexivity. }
  split; [exact Hin|]. split; [vm_compute; reflexivity|].
  destruct (@persisted_pixels_in_display_range
              (Fixture.framework Fixture.no_resize) Fixture.imagenet_index
              "cat.png" "Golf_Ball" "output.png" Fixture.output_png Hin)
    as (i & input_image & top & rest & tr_loop & st & H).
  apply H.
Defined.

(** The run on cat.png reaches its end. *)
Lemma classified_tensor_is_not_the_written_image_witness :
  Fixture.golf_run = (Fixture.golf_run.1, Done (Fixture.namespace_of Fixture.golf_run))
  /\ written_files Fixture.golf_run.1
     = [("output.png",
         adversarial_image
           (ns_baseImage (Fixture.namespace_of Fixture.golf_run))
           (ns_deltaUpdated (Fixture.namespace_of Fixture.golf_run)))].
Proof.
  assert (Fixture.golf_run
          = (Fixture.golf_run.1, Done (Fixture.namespace_of Fixture.golf_run))) as Hrun.
  { vm_compute. reflexivity. }
  split; [exact Hrun|].
  exact (proj1 (proj2 (@classified_tensor_is_not_the_written_image
                         (Fixture.framework Fixture.no_resize) Fixture.imagenet_index
                         "cat.png" "Golf_Ball" _ _ Hrun))).
Defined.

(** * Further properties *)

(** ** The label resolver: which keys can be found *)

Lemma normalize_char_table :
  forallb (fun c =>
    let n := normalize_char c in
    negb (PyStr.is_upper n) && negb (Ascii.eqb n "_")
    && implb (negb (PyStr.is_upper c) && negb (Ascii.eqb c "_")) (Ascii.eqb n c))
    all_ascii = true.
Proof. vm_compute. reflexivity. Qed.

Lemma normalize_char_spec (c : ascii) :
  PyStr.is_upper (normalize_char c) = false
  /\ Ascii.eqb (normalize_char c) "_" = false
  /\ (PyStr.is_upper c = false -> Ascii.eqb c "_" = false -> normalize_char c = c).
Proof.
  pose proof normalize_char_table as T. rewrite forallb_forall in T.
  specialize (T c (all_ascii_complete c)). cbv zeta in T.
  apply andb_true_iff in T as [[Hu Hs]%andb_true_iff Hid].
  apply negb_true_iff in Hu, Hs. repeat split; try assumption.
  intros Hcu Hcs. rewrite Hcu, Hcs in Hid. now apply Ascii.eqb_eq.
Qed.

Lemma normalize_label_is_normalized (s : string) :
  is_normalized (normalize_label s) = true.
Proof.
  induction s as [|c s IH]; [reflexivity|].
  rewrite normalize_label_cons. simpl.
  destruct (normalize_char_spec c) as (-> & -> & _). exact IH.
Qed.

Lemma normalize_label_fixes_normalized (k : string) :
  is_normalized k = true -> normalize_label k = k.
Proof.
  induction k as [|c k IH]; [reflexivity|]. simpl.
  intros [[Hu Hs]%andb_true_iff Hk]%andb_true_iff.
  apply negb_true_iff in Hu, Hs.
  rewrite normalize_label_cons, (IH Hk).
  destruct (normalize_char_spec c) as (_ & _ & ->); auto.
Qed.

(** X1: an entry of the label map whose key holds a capital letter or an
    underscore is never found: removing it changes no resolution. *)
Theorem unnormalized_key_is_dead (mapping_dict : gmap string Z) (k label : string) :
  is_normalized k = false ->
  get_target_class_index (delete k mapping_dict) label
  = get_target_class_index mapping_dict label.
Proof.
  intros Hk. unfold get_target_class_index.
  apply lookup_delete_ne. intros ->.
  now rewrite normalize_label_is_normalized in Hk.
Qed.

(** X2: an index stored under a key in normalized form is found by every
    spelling of that key that differs from it only in letter case and in
    underscores for spaces. *)
Theorem stored_index_is_found (mapping_dict : gmap string Z) (k label : string) (v : Z) :
  is_normalized k = true ->
  label_variant label k = true ->
  get_target_class_index (<[k := v]> mapping_dict) label = Some v.
Proof.
  intros Hk Hv. unfold get_target_class_index.
  rewrite (label_variant_normalize label k Hv), (normalize_label_fixes_normalized k Hk).
  apply lookup_insert_eq.
Qed.

(** ** [clip_eps] on its own *)

(** X3: for a non-negative [eps], [clip_eps] keeps the shape and the number
    of elements, puts every element inside [-eps, eps], and leaves the
    elements that were inside as they are. *)
Theorem clip_eps_bounds (t : tensor) (eps : Q) :
  (0 <= eps)%Q ->
  shape (clip_eps t eps) = shape t
  /\ length (data (clip_eps t eps)) = length (data t)
  /\ Forall (fun y => (- eps <= y <= eps)%Q) (data (clip_eps t eps))
  /\ Forall2 (fun x y => (- eps <= x <= eps)%Q -> (y == x)%Q)
       (data t) (data (clip_eps t eps)).
Proof.
  intros Heps. unfold clip_eps, Tf.clip_by_value, Np.map. simpl.
  split; [reflexivity|]. split; [apply length_map|]. split.
  - apply List.Forall_forall. intros y (x & <- & _)%in_map_iff.
    apply clip_by_value_range. lra.
  - induction (data t) as [|x l IH]; simpl; constructor; [|exact IH].
    intros Hx. unfold Tf.clip_elem.
    destruct (Q.min_spec x eps) as [[? E1]|[? E1]],
             (Q.max_spec (Qmin x eps) (- eps)) as [[? E2]|[? E2]]; lra.
Qed.

(** ** The loop: empty budgets, missing indices, resumed runs *)

Lemma for_each_app {S X} (body : X -> S -> io S) (xs ys : list X) (s : S) :
  for_each body (xs ++ ys) s
  = io_bind (for_each body xs s) (for_each body ys).
Proof.
  revert s. induction xs as [|x xs IH]; intros s; simpl.
  - unfold mret, io_mret, io_ret, io_bind. now destruct (for_each body ys s).
  - unfold mbind, io_mbind. rewrite io_bind_assoc.
    destruct (body x s) as [tr [s'| |]]; simpl; try reflexivity.
    now rewrite IH.
Qed.

Lemma library_calls_app (tr1 tr2 : list event) :
  library_calls (tr1 ++ tr2) = library_calls tr1 ++ library_calls tr2.
Proof. apply List.filter_app. Qed.

Section Loop.
Context `{F : Framework}.

(** X5: a step budget of zero or less makes no pass: no event, the store
    as it was, and no exception even when a class index is [None]. *)
Theorem no_pass_without_budget (b : tensor) (o t : option Z) (steps : Z) (st : store) :
  (steps <= 0)%Z ->
  generate_target_adversaries b o t steps st = ([], Done st).
Proof.
  intros Hsteps. unfold generate_target_adversaries, range.
  replace (Z.to_nat steps) with 0%nat by lia. reflexivity.
Qed.

Lemma loop_body_none (o t : option Z) (k : Z) (st : store) :
  o = None \/ t = None ->
  loop_body o t k st
  = ([Forward (preprocess_input (Tf.add (st_baseImage st) (st_delta st)))],
     Raised TypeError).
Proof.
  intros H. unfold loop_body.
  destruct (model_call _ _ _) as [predictions weights].
  destruct o as [o|], t as [t|]; try reflexivity.
  destruct H; discriminate.
Qed.

Lemma generate_none_raises (b : tensor) (o t : option Z) (steps : Z) (st : store) :
  (0 < steps)%Z ->
  o = None \/ t = None ->
  generate_target_adversaries b o t steps st
  = ([Forward (preprocess_input (Tf.add (st_baseImage st) (st_delta st)))],
     Raised TypeError).
Proof.
  intros Hsteps Hnone. unfold generate_target_adversaries, range.
  destruct (Z.to_nat steps) as [|n] eqn:Hn; [lia|].
  simpl. unfold mbind, io_mbind. now rewrite (loop_body_none o t _ st Hnone).
Qed.

(** X6: with a positive step budget and a class index that is [None], the
    loop raises [TypeError] in its first pass, after one call of the
    classifier: nothing is printed, no gradient is taken and the
    perturbation is never updated. *)
Theorem missing_index_raises (b : tensor) (o t : option Z) (steps : Z) (st : store) :
  (0 < steps)%Z ->
  o = None \/ t = None ->
  exists tr,
    generate_target_adversaries b o t steps st = (tr, Raised TypeError)
    /\ forward_calls tr = [preprocess_input (Tf.add (st_baseImage st) (st_delta st))]
    /\ printed_losses tr = [] /\ tape_losses tr = [] /\ gradient_updates tr = [].
Proof.
  intros Hsteps Hnone. eexists. split; [now apply generate_none_raises|].
  repeat split.
Qed.

Lemma loop_body_step_index (o t : option Z) (k k' : Z) (st : store) :
  (loop_body o t k st).2 = (loop_body o t k' st).2
  /\ library_calls (loop_body o t k st).1 = library_calls (loop_body o t k' st).1.
Proof.
  destruct o as [o|], t as [t|].
  - rewrite !loop_body_int. simpl.
    now destruct (k mod 10 =? 0)%Z, (k' mod 10 =? 0)%Z.
  - rewrite !loop_body_none by auto. auto.
  - rewrite !loop_body_none by auto. auto.
  - rewrite !loop_body_none by auto. auto.
Qed.

Lemma for_each_step_indices (o t : option Z) (ks ks' : list Z) :
  length ks = length ks' ->
  forall st : store,
    (for_each (loop_body o t) ks st).2 = (for_each (loop_body o t) ks' st).2
    /\ library_calls (for_each (loop_body o t) ks st).1
       = library_calls (for_each (loop_body o t) ks' st).1.
Proof.
  revert ks'. induction ks as [|k ks IH]; intros [|k' ks']; try discriminate.
  - auto.
  - intros [= Hlen] st. simpl. unfold mbind, io_mbind, io_bind.
    destruct (loop_body_step_index o t k k' st) as [Hr Hc].
    destruct (loop_body o t k st) as [tr r], (loop_body o t k' st) as [tr' r'].
    simpl in Hr, Hc. subst r'. destruct r as [s| |]; simpl; auto.
    destruct (IH ks' Hlen s) as [Hr' Hc'].
    destruct (for_each (loop_body o t) ks s) as [tr1 r1],
             (for_each (loop_body o t) ks' s) as [tr1' r1'].
    simpl in *. now rewrite !library_calls_app, Hc, Hc', Hr'.
Qed.

(** X7: the step index only decides which passes print.  A run of [n]
    passes followed by a run of [m] passes from the store it left ends in
    the store of a single run of [n + m] passes, with the same library
    calls in the same order. *)
Theorem resumed_run (b : tensor) (o t : option Z) (n m : nat)
    (st st1 st2 : store) (tr1 tr2 : list event) :
  generate_target_adversaries b o t (Z.of_nat n) st = (tr1, Done st1) ->
  generate_target_adversaries b o t (Z.of_nat m) st1 = (tr2, Done st2) ->
  exists tr,
    generate_target_adversaries b o t (Z.of_nat (n + m)) st = (tr, Done st2)
    /\ library_calls tr = library_calls tr1 ++ library_calls tr2.
Proof.
  unfold generate_target_adversaries. intros Hrun1 Hrun2.
  assert (range (Z.of_nat (n + m))
          = range (Z.of_nat n) ++ List.map Z.of_nat (seq n m)) as ->.
  { unfold range. now rewrite !Nat2Z.id, seq_app, map_app. }
  rewrite for_each_app, Hrun1, io_bind_done.
  destruct (for_each_step_indices o t (List.map Z.of_nat (seq n m)) (range (Z.of_nat m))
              ltac:(now rewrite range_length, length_map, length_seq) st1) as [Hr Hc].
  rewrite Hrun2 in Hr, Hc. simpl in Hr, Hc.
  eexists. split; [now rewrite Hr|].
  now rewrite library_calls_app, Hc.
Qed.

(** X8: when the target class is the original class, the combined loss of
    every pass is zero, whatever the classifier's scores: the two
    cross-entropy terms cancel. *)
Theorem same_class_zero_loss (b : tensor) (o : Z) (n : nat) (st : store) :
  let tr := (generate_target_adversaries b (Some o) (Some o) (Z.of_nat n) st).1 in
  Forall (fun l => (l == 0)%Q) (tape_losses tr)
  /\ Forall (fun p => (p.2 == 0)%Q) (printed_losses tr).
Proof.
  cbv zeta. induction n as [|n [IHl IHp]]; [split; constructor|].
  destruct (generate_int_trace b o o n st) as (tr & st' & Hrun & _).
  rewrite Hrun in IHl, IHp. simpl in IHl, IHp.
  rewrite generate_succ, Hrun, io_bind_done, loop_body_int. simpl fst.
  match goal with
  | |- context [Forward ?a :: (if ?c then [Print (MsgStepLoss ?j ?l)] else [])
                  ++ [TapeGradient ?l; ApplyGradients ?g]] =>
      destruct (pass_events a g j l c) as (_ & _ & El & Ep & _);
      cbv zeta in El, Ep;
      assert ((l == 0)%Q) as Hzero by (unfold recorded_loss; lra)
  end.
  unfold tape_losses, printed_losses in *. rewrite !omap_app, El, Ep.
  split; apply Forall_app; split; try assumption.
  - now repeat constructor.
  - destruct (Z.of_nat n mod 10 =? 0)%Z; now repeat constructor.
Qed.

End Loop.

(** ** The driver: how a run can end *)

Lemma np_clip_id (x : Q) : (0 <= x <= 255)%Q -> (Np.clip_elem 0 255 x == x)%Q.
Proof.
  intros Hx. unfold Np.clip_elem.
  destruct (Q.max_spec x 0) as [[? E1]|[? E1]],
           (Q.min_spec (Qmax x 0) 255) as [[? E2]|[? E2]]; lra.
Qed.

(** X9: without a perturbation the pipeline gives the image back.  For an
    8-bit RGB image [r] (the resized input), the image written for
    [baseImage = r] and [delta = 0] holds the pixels of [r], unchanged, in
    BGR order. *)
Theorem zero_perturbation_round_trip (r : ndarray Z) :
  Forall (fun v => 0 <= v <= 255)%Z (data r) ->
  let baseImage := Tf.constant (Np.expand_dims0 r) in
  data (adversarial_image baseImage (Tf.zeros_like baseImage))
  = data (Cv.cvtColor r).
Proof.
  intros Hbytes baseImage. subst baseImage.
  rewrite adversarial_image_data. simpl. f_equal.
  induction Hbytes as [|v l Hv _ IH]; simpl; [reflexivity|].
  rewrite IH. f_equal.
  assert ((inject_Z v + 0 == inject_Z v)%Q) as Hsum by lra.
  assert ((0 <= inject_Z v + 0 <= 255)%Q) as Hrange.
  { rewrite Hsum. split.
    - change 0%Q with (inject_Z 0). rewrite <- Zle_Qle. lia.
    - change 255%Q with (inject_Z 255). rewrite <- Zle_Qle. lia. }
  rewrite (Qfloor_comp _ _ (np_clip_id _ Hrange)), (Qfloor_comp _ _ Hsum).
  apply Qfloor_Z.
Qed.

Section Outcomes.
Context `{F : Framework}.

Lemma attack_no_exit (m : gmap string Z) (file target : string) (i c : Z) :
  (attack m file target i).2 <> Exited c.
Proof.
  rewrite attack_unfold. cbv zeta.
  destruct (imread file) as [img|]; [|discriminate].
  destruct (decode_predictions _) as [|top tops]; [discriminate|].
  match goal with
  | |- context [generate_target_adversaries ?b ?o ?t ?n ?st] =>
      pose proof (generate_no_exit b o t n st) as Hne;
      destruct (generate_target_adversaries b o t n st) as [tr [st'| |]]
  end; simpl in Hne.
  - destruct (decode_predictions _); discriminate.
  - now destruct (Hne code).
  - discriminate.
Qed.

(** X10: once its two arguments are parsed (lines 81-148), the script's
    own code ends a run by an exit only in one way: with code 0, when the
    normalized target class name is not a key of the label map.  (The exits
    of [parse_args] itself on line 79 come before and are not part of
    [main].) *)
Theorem exit_only_on_missing_target (m : gmap string Z) (file target : string) (c : Z) :
  (main m file target).2 = Exited c ->
  c = 0%Z /\ m !! normalize_label target = None.
Proof.
  unfold main, get_target_class_index.
  destruct (m !! normalize_label target) as [i|].
  - simpl. intros Hexit.
    pose proof (attack_no_exit m file target i c) as Hne.
    destruct (attack m file target i) as [tr r]. simpl in *. now subst r.
  - simpl. intros [= <-]. auto.
Qed.

(** X11: with a known target class and an image that [cv2.imread] cannot
    decode, the script echoes its inputs, asks for the image and ends with
    the error of [cv2.cvtColor]: no model is loaded, nothing is written. *)
Theorem unreadable_image_raises (m : gmap string Z) (file target : string) (i : Z) :
  m !! normalize_label target = Some i ->
  imread file = None ->
  main m file target
  = ([Print (MsgTfVersion tf_version);
      Print (MsgGpu (negb (String.eqb gpu_device_name "")));
      Print (MsgInputFilename file); Print (MsgTargetClass target);
      Print (MsgTargetIndex i); Imread file],
     Raised CvError).
Proof.
  intros Htarget Hread. unfold main, get_target_class_index.
  rewrite Htarget, attack_unfold, Hread. reflexivity.
Qed.

(** X12: when the label of the classifier's top prediction for the input
    image is not a key of the label map, the script goes into the loop with
    [None] as original class index and ends with [TypeError] in the first
    pass: one call of the classifier in the loop, no optimizer update, no
    file written. *)
Theorem unresolved_original_label_raises (m : gmap string Z) (file target : string)
    (i : Z) (img : ndarray Z) (top : prediction) (rest : list prediction) :
  m !! normalize_label target = Some i ->
  imread file = Some img ->
  decode_predictions
    (model_call ResNet50 false
       (preprocess_input
          (Tf.constant (Np.expand_dims0 (resize (Cv.cvtColor img) 224 224))))).1
  = top :: rest ->
  m !! normalize_label top.1.2 = None ->
  exists tr,
    main m file target = (tr, Raised TypeError)
    /\ In (Print (MsgOriginalIndex None)) tr
    /\ length (forward_calls tr) = 1%nat
    /\ gradient_updates tr = []
    /\ written_files tr = [].
Proof.
  intros Htarget Hread Hdec Horig. unfold main, get_target_class_index.
  rewrite Htarget, attack_unfold, Hread. cbv zeta.
  rewrite Hdec. unfold get_target_class_index. rewrite Horig.
  rewrite generate_none_raises by (auto; lia).
  eexists. split; [reflexivity|]. simpl. repeat split. tauto.
Qed.

(** X13: a run that reaches its end has made exactly 100 passes of the loop
    (100 classifier calls in the loop and 100 optimizer updates) and has
    printed the loss for the steps 0, 10, ..., 90. *)
Theorem completed_run_has_100_passes (m : gmap string Z) (file target : string)
    (tr : list event) (ns : namespace) :
  main m file target = (tr, Done ns) ->
  length (forward_calls tr) = 100%nat
  /\ length (gradient_updates tr) = 100%nat
  /\ List.map fst (printed_losses tr) = [0; 10; 20; 30; 40; 50; 60; 70; 80; 90]%Z.
Proof.
  unfold main, get_target_class_index.
  destruct (m !! normalize_label target) as [i|]; [|discriminate].
  rewrite attack_unfold. cbv zeta.
  destruct (imread file) as [img|]; [|discriminate].
  destruct (decode_predictions _) as [|top tops]; [discriminate|].
  destruct (get_target_class_index m top.1.2) as [o|].
  2: { rewrite generate_none_raises; [discriminate | reflexivity | now left]. }
  match goal with
  | |- context [generate_target_adversaries ?b (Some o) (Some i) _ ?st] =>
      destruct (generate_int_trace b o i 100 st)
        as (gtr & st' & Hrun & Hf & Hg & Hl & Hp & _)
  end.
  change (Z.of_nat 100) with 100%Z in Hrun. rewrite Hrun.
  destruct (decode_predictions _) as [|top2 tops2]; [discriminate|].
  intros [= <- _].
  apply (f_equal (List.map fst)) in Hp.
  rewrite (filter_zip_fst (fun k => (k mod 10 =? 0)%Z)) in Hp
    by (now rewrite range_length, Hl).
  unfold forward_calls, gradient_updates, printed_losses in *. simpl.
  rewrite !omap_app, !map_app, !length_app, Hf, Hg, Hp. simpl. repeat split.
Qed.

(** X15: whatever the size of the decoded 3-channel image and whatever the
    loop returns, the image handed to [cv2.imwrite] has the shape
    (224, 224, 3), given that [cv2.resize] returns the size it is asked
    for. *)
Theorem written_image_shape (img : ndarray Z) (h0 w0 : nat) (out : ndarray Z)
    (deltaUpdated : tensor) :
  shape img = [h0; w0; 3%nat] ->
  (forall (im : ndarray Z) (w h a b c : nat),
      shape im = [a; b; c] -> shape (resize im w h) = [h; w; c]) ->
  preprocess_image (Some img) = ([], Done out) ->
  shape (adversarial_image (Tf.constant out) deltaUpdated) = [224; 224; 3]%nat.
Proof.
  intros Hshape Hresize [= <-]. simpl.
  now rewrite (Hresize _ _ _ h0 w0 3%nat).
Qed.

End Outcomes.

(** ** The further properties on the small framework *)

(** A key written with a capital and an underscore. *)
Lemma unnormalized_key_is_dead_witness :
  is_normalized "Golf_Ball" = false
  /\ get_target_class_index
       (delete "Golf_Ball" (<["Golf_Ball" := 7%Z]> Fixture.imagenet_index)) "Golf_Ball"
     = get_target_class_index (<["Golf_Ball" := 7%Z]> Fixture.imagenet_index) "Golf_Ball".
Proof.
  split; [reflexivity|].
  apply (unnormalized_key_is_dead (<["Golf_Ball" := 7%Z]> Fixture.imagenet_index)
           "Golf_Ball" "Golf_Ball").
  reflexivity.
Defined.

(** A new class, asked for in capitals. *)
Lemma stored_index_is_found_witness :
  is_normalized "tiger cat" = true
  /\ label_variant "TIGER_CAT" "tiger cat" = true
  /\ get_target_class_index (<["tiger cat" := 282%Z]> Fixture.imagenet_index) "TIGER_CAT"
     = Some 282%Z.
Proof.
  split; [reflexivity|]. split; [reflexivity|].
  apply (stored_index_is_found Fixture.imagenet_index "tiger cat" "TIGER_CAT" 282%Z);
    reflexivity.
Defined.

(** The script's [epsilon] on a tensor with elements inside and outside. *)
Lemma clip_eps_bounds_witness :
  (0 <= 2 # 255)%Q
  /\ Forall (fun y => (- (2 # 255) <= y <= 2 # 255)%Q)
       (data (clip_eps (mk_ndarray [3%nat] [(1 # 100)%Q; (1 # 1000)%Q; (- 5 # 1)%Q])
                (2 # 255))).
Proof.
  assert ((0 <= 2 # 255)%Q) as Heps by (now vm_compute).
  split; [exact Heps|].
  exact (proj1 (proj2 (proj2
           (clip_eps_bounds (mk_ndarray [3%nat] [(1 # 100)%Q; (1 # 1000)%Q; (- 5 # 1)%Q])
              (2 # 255) Heps)))).
Defined.

(** The first pass on the small framework. *)
Lemma pass_bound_iff_witness :
  (0 <= st_epsilon Fixture.store0)%Q
  /\ @loop_body (Fixture.framework Fixture.no_resize) (Some 0%Z) (Some 1%Z) 0 Fixture.store0
     = ((Fixture.run 1).1, Done (Fixture.store_after 1))
  /\ (Forall (fun x => (- (2 # 255) <= x <= 2 # 255)%Q)
        (data (st_delta (Fixture.store_after 1)))
      <-> Forall (fun u => (- (2 # 255) <= 2 * u <= 2 # 255)%Q)
            [0%Q; (1 # 100)%Q; (- 1 # 100)%Q]).
Proof.
  assert ((0 <= st_epsilon Fixture.store0)%Q) as Heps by (now vm_compute).
  assert (@loop_body (Fixture.framework Fixture.no_resize) (Some 0%Z) (Some 1%Z) 0
            Fixture.store0
          = ((Fixture.run 1).1, Done (Fixture.store_after 1))) as Hrun
    by (vm_compute; reflexivity).
  split; [exact Heps|]. split; [exact Hrun|].
  exact (@pass_bound_iff (Fixture.framework Fixture.no_resize) 0%Z 1%Z 0%Z
           Fixture.store0 (Fixture.store_after 1) (Fixture.run 1).1 Heps Hrun).
Defined.

(** A negative budget, without class indices. *)
Lemma no_pass_without_budget_witness :
  (-3 <= 0)%Z
  /\ @generate_target_adversaries (Fixture.framework Fixture.no_resize)
       (st_baseImage Fixture.store0) None None (-3) Fixture.store0
     = ([], Done Fixture.store0).
Proof.
  split; [lia|].
  apply (@no_pass_without_budget (Fixture.framework Fixture.no_resize)). lia.
Defined.

(** The script's budget, without an original class index. *)
Lemma missing_index_raises_witness :
  (0 < 100)%Z
  /\ (@None Z = None \/ Some 1%Z = None)
  /\ exists tr,
       @generate_target_adversaries (Fixture.framework Fixture.no_resize)
         (st_baseImage Fixture.store0) None (Some 1%Z) 100 Fixture.store0
       = (tr, Raised TypeError)
       /\ gradient_updates tr = [].
Proof.
  split; [lia|]. split; [now left|].
  destruct (@missing_index_raises (Fixture.framework Fixture.no_resize)
              (st_baseImage Fixture.store0) None (Some 1%Z) 100 Fixture.store0
              ltac:(lia) ltac:(now left)) as (tr & Hrun & _ & _ & _ & Hg).
  exists tr. split; [exact Hrun | exact Hg].
Defined.

(** Two passes, then one more, against three passes. *)
Lemma resumed_run_witness :
  Fixture.run 2 = ((Fixture.run 2).1, Done (Fixture.store_after 2))
  /\ @generate_target_adversaries (Fixture.framework Fixture.no_resize)
       (st_baseImage Fixture.store0) (Some 0%Z) (Some 1%Z) (Z.of_nat 1)
       (Fixture.store_after 2)
     = ((@generate_target_adversaries (Fixture.framework Fixture.no_resize)
           (st_baseImage Fixture.store0) (Some 0%Z) (Some 1%Z) (Z.of_nat 1)
           (Fixture.store_after 2)).1, Done (Fixture.store_after 3))
  /\ exists tr, Fixture.run 3 = (tr, Done (Fixture.store_after 3)).
Proof.
  assert (Fixture.run 2 = ((Fixture.run 2).1, Done (Fixture.store_after 2))) as H1
    by (vm_compute; reflexivity).
  assert (@generate_target_adversaries (Fixture.framework Fixture.no_resize)
            (st_baseImage Fixture.store0) (Some 0%Z) (Some 1%Z) (Z.of_nat 1)
            (Fixture.store_after 2)
          = ((@generate_target_adversaries (Fixture.framework Fixture.no_resize)
           (st_baseImage Fixture.store0) (Some 0%Z) (Some 1%Z) (Z.of_nat 1)
           (Fixture.store_after 2)).1, Done (Fixture.store_after 3))) as H2.
  { vm_compute. reflexivity. }
  split; [exact H1|]. split; [exact H2|].
  destruct (@resumed_run (Fixture.framework Fixture.no_resize)
              (st_baseImage Fixture.store0) (Some 0%Z) (Some 1%Z) 2 1
              Fixture.store0 (Fixture.store_after 2) (Fixture.store_after 3) _ _ H1 H2)
    as (tr & Hrun & _).
  exists tr. exact Hrun.
Defined.

(** The RGB form of cat.png, unperturbed. *)
Lemma zero_perturbation_round_trip_witness :
  Forall (fun v => 0 <= v <= 255)%Z (data (Cv.cvtColor Fixture.cat_png))
  /\ data (adversarial_image
             (Tf.constant (Np.expand_dims0 (Cv.cvtColor Fixture.cat_png)))
             (Tf.zeros_like
                (Tf.constant (Np.expand_dims0 (Cv.cvtColor Fixture.cat_png)))))
     = data Fixture.cat_png.
Proof.
  assert (Forall (fun v => 0 <= v <= 255)%Z (data (Cv.cvtColor Fixture.cat_png))) as Hb.
  { simpl. repeat constructor; lia. }
  split; [exact Hb|].
  exact (zero_perturbation_round_trip (Cv.cvtColor Fixture.cat_png) Hb).
Defined.

(** An unknown target class. *)
Lemma exit_only_on_missing_target_witness :
  (@main (Fixture.framework Fixture.no_resize) Fixture.imagenet_index "cat.png" "dog").2
  = Exited 0
  /\ Fixture.imagenet_index !! normalize_label "dog" = None.
Proof.
  assert ((@main (Fixture.framework Fixture.no_resize) Fixture.imagenet_index
             "cat.png" "dog").2 = Exited 0) as Hexit by reflexivity.
  split; [exact Hexit|].
  exact (proj2 (@exit_only_on_missing_target (Fixture.framework Fixture.no_resize)
                  Fixture.imagenet_index "cat.png" "dog" 0%Z Hexit)).
Defined.

(** A file that is not there. *)
Lemma unreadable_image_raises_witness :
  Fixture.imagenet_index !! normalize_label "tabby" = Some 0%Z
  /\ @imread (Fixture.framework Fixture.no_resize) "dog.png" = None
  /\ (@main (Fixture.framework Fixture.no_resize) Fixture.imagenet_index
        "dog.png" "tabby").2 = Raised CvError.
Proof.
  split; [reflexivity|]. split; [reflexivity|].
  now rewrite (@unreadable_image_raises (Fixture.framework Fixture.no_resize)
                 Fixture.imagenet_index "dog.png" "tabby" 0%Z eq_refl eq_refl).
Defined.

(** A label map that lacks the predicted class. *)
Lemma unresolved_original_label_raises_witness :
  Fixture.golf_only !! normalize_label "Golf_Ball" = Some 1%Z
  /\ Fixture.golf_only !! normalize_label "tabby" = None
  /\ exists tr,
       @main (Fixture.framework Fixture.no_resize) Fixture.golf_only "cat.png" "Golf_Ball"
       = (tr, Raised TypeError)
       /\ written_files tr = [].
Proof.
  split; [reflexivity|]. split; [reflexivity|].
  destruct (@unresolved_original_label_raises (Fixture.framework Fixture.no_resize)
              Fixture.golf_only "cat.png" "Golf_Ball" 1%Z Fixture.cat_png
              ("n0", "tabby", (- 93939 # 1000)%Q)
              [("n0", "golf_ball", (3221 # 1000)%Q); ("n0", "soccer_ball", (12632 # 100)%Q)]
              eq_refl eq_refl eq_refl eq_refl) as (tr & Hrun & _ & _ & _ & Hw).
  exists tr. split; [exact Hrun | exact Hw].
Defined.

(** The run on cat.png. *)
Lemma completed_run_has_100_passes_witness :
  Fixture.golf_run = (Fixture.golf_run.1, Done (Fixture.namespace_of Fixture.golf_run))
  /\ length (forward_calls Fixture.golf_run.1) = 100%nat.
Proof.
  assert (Fixture.golf_run
          = (Fixture.golf_run.1, Done (Fixture.namespace_of Fixture.golf_run))) as Hrun
    by (vm_compute; reflexivity).
  split; [exact Hrun|].
  exact (proj1 (@completed_run_has_100_passes (Fixture.framework Fixture.no_resize)
                  Fixture.imagenet_index "cat.png" "Golf_Ball" _ _ Hrun)).
Defined.

(** A 1x1 image under nearest-neighbour resizing. *)
Lemma written_image_shape_witness :
  shape Fixture.cat_png = [1; 1; 3]%nat
  /\ (forall (im : ndarray Z) (w h a b c : nat),
        shape im = [a; b; c] -> shape (Fixture.nearest_resize im w h) = [h; w; c])
  /\ shape (adversarial_image
              (Tf.constant
                 (Np.expand_dims0
                    (Fixture.nearest_resize (Cv.cvtColor Fixture.cat_png) 224 224)))
              (Tf.constant Fixture.cat_png))
     = [224; 224; 3]%nat.
Proof.
  assert (forall (im : ndarray Z) (w h a b c : nat),
             shape im = [a; b; c] -> shape (Fixture.nearest_resize im w h) = [h; w; c])
    as Hresize.
  { intros im w h a b c Him. unfold Fixture.nearest_resize. now rewrite Him. }
  split; [reflexivity|]. split; [exact Hresize|].
  exact (@written_image_shape (Fixture.framework Fixture.nearest_resize)
           Fixture.cat_png 1 1 _ (Tf.constant Fixture.cat_png) eq_refl Hresize eq_refl).
Defined.
